(** * dso-code-comment-remover: the comment-stripping core of [src/main.py]

    [remove_comments] reads a file into the string [code], rewrites it with
    four [re.sub] calls and, unless [remove_all] is set, prepends the lines
    found by one [re.findall] call; the result [preserved_code] is written
    out.  This development embeds that text-to-text core (called [strip] in
    the specification) together with the fragment of Python's backtracking
    regular-expression semantics that its five patterns use, and proves the
    properties the specification states of it.

    Text is a [string].  The patterns only ever test for the ASCII characters
    of their literals and for the newline, so every other character is
    opaque to them. *)

From Stdlib Require Import Strings.String Strings.Ascii Strings.Byte Lists.List Arith.PeanoNat Arith.Wf_nat Bool.Bool Lia.
Import ListNotations.
Local Open Scope list_scope.
Local Open Scope string_scope.

(** ** Characters *)

Definition NL : ascii := "010"%char.

(** Python's ["\n"]. *)
Definition nl : string := String NL "".

Definition is_nl (c : ascii) : bool := (c =? NL)%char.

(** * A backtracking matcher for the regex fragment of the program *)

Module Re.

(** Character classes of the patterns: [.] (anything but a newline, the
    DOTALL flag being off) and [[\s\S]] (anything). *)
Inductive cclass : Type :=
| Dot
| AnyChar.

Definition mem (cs : cclass) (c : ascii) : bool :=
  match cs with
  | Dot => negb (is_nl c)
  | AnyChar => true
  end.

(** The syntax the five patterns are written in.  [Bol] and [Eol] are [^] and
    [$] under [re.MULTILINE]. *)
Inductive regex : Type :=
| Lit (l : string)
| Seq (a b : regex)
| Star (cs : cclass)
| StarLazy (cs : cclass)
| Bol
| Eol.

(** A position in the subject: the character just before it, if any, and the
    text from it on.  A continuation receives the position where the rest of
    the pattern must go on and answers with the text left after the whole
    match. *)
Definition cont : Type := option ascii -> string -> option string.

Fixpoint lit (l : string) (k : cont) (prev : option ascii) (s : string) : option string :=
  match l with
  | EmptyString => k prev s
  | String a l' =>
      match s with
      | EmptyString => None
      | String c r => if (a =? c)%char then lit l' k (Some c) r else None
      end
  end.

(** Greedy [X*]: take one more character first, give it back on failure. *)
Fixpoint star_greedy (cs : cclass) (k : cont) (prev : option ascii) (s : string) : option string :=
  match s with
  | EmptyString => k prev s
  | String c r =>
      if mem cs c then
        match star_greedy cs k (Some c) r with
        | Some rest => Some rest
        | None => k prev s
        end
      else k prev s
  end.

(** Lazy [X*?]: try the rest of the pattern first, take one more character
    on failure. *)
Fixpoint star_lazy (cs : cclass) (k : cont) (prev : option ascii) (s : string) : option string :=
  match k prev s with
  | Some rest => Some rest
  | None =>
      match s with
      | EmptyString => None
      | String c r => if mem cs c then star_lazy cs k (Some c) r else None
      end
  end.

Definition at_bol (prev : option ascii) : bool :=
  match prev with
  | None => true
  | Some c => is_nl c
  end.

Definition at_eol (s : string) : bool :=
  match s with
  | EmptyString => true
  | String c _ => is_nl c
  end.

Fixpoint run (re : regex) (k : cont) : cont :=
  match re with
  | Lit l => lit l k
  | Seq a b => run a (run b k)
  | Star cs => star_greedy cs k
  | StarLazy cs => star_lazy cs k
  | Bol => fun prev s => if at_bol prev then k prev s else None
  | Eol => fun prev s => if at_eol s then k prev s else None
  end.

(** The first match of [re] that starts exactly at the given position, in
    the engine's priority order; the answer is the text after the match. *)
Definition match_at (re : regex) (prev : option ascii) (s : string) : option string :=
  run re (fun _ rest => Some rest) prev s.

(** A matcher tried at one position. *)
Definition matcher : Type := option ascii -> string -> option string.

(** Number of characters a match consumed. *)
Definition consumed (s rest : string) : nat := String.length s - String.length rest.

(** [re.sub(pattern, '', s)]: scan left to right; where the pattern matches,
    drop the matched characters and go on behind them; elsewhere keep the
    character.  [skip] counts the characters of the current match still to be
    dropped.  An empty match is replaced by the empty string, which changes
    nothing.  Python looks for a longer match at the same position after an
    empty one; that is left out, since every pattern of the program starts
    with a literal and so never matches the empty string (see
    [sub_patterns_progress]). *)
Fixpoint sub_loop (m : matcher) (skip : nat) (prev : option ascii) (s : string) : string :=
  match s with
  | EmptyString => EmptyString
  | String c r =>
      match skip with
      | S n => sub_loop m n (Some c) r
      | O =>
          match m prev s with
          | Some rest =>
              match consumed s rest with
              | S n => sub_loop m n (Some c) r
              | O => String c (sub_loop m 0 (Some c) r)
              end
          | None => String c (sub_loop m 0 (Some c) r)
          end
      end
  end.

Definition sub (re : regex) (s : string) : string :=
  sub_loop (match_at re) 0 None s.

(** [re.findall(pattern, s, re.MULTILINE)] for a pattern whose only group
    spans the whole match: the matched texts, left to right, without
    overlap.  The same remark on empty matches applies. *)
Fixpoint findall_loop (m : matcher) (skip : nat) (prev : option ascii) (s : string) : list string :=
  match s with
  | EmptyString =>
      match m prev s with
      | Some _ => [EmptyString]
      | None => []
      end
  | String c r =>
      match skip with
      | S n => findall_loop m n (Some c) r
      | O =>
          match m prev s with
          | Some rest =>
              match consumed s rest with
              | S n => substring 0 (S n) s :: findall_loop m n (Some c) r
              | O => EmptyString :: findall_loop m 0 (Some c) r
              end
          | None => findall_loop m 0 (Some c) r
          end
      end
  end.

Definition findall (re : regex) (s : string) : list string :=
  findall_loop (match_at re) 0 None s.

End Re.

Import Re.

(** * The program *)

(** The pattern "//.*" of the first substitution. *)
Definition slash_pattern : regex := Seq (Lit "//") (Star Dot).

(** The pattern "/\*[\s\S]*?\*/" of the second substitution. *)
Definition block_pattern : regex := Seq (Lit "/*") (Seq (StarLazy AnyChar) (Lit "*/")).

(** The pattern "#.*" of the third substitution. *)
Definition hash_pattern : regex := Seq (Lit "#") (Star Dot).

(** The pattern "--.*" of the fourth substitution. *)
Definition dash_pattern : regex := Seq (Lit "--") (Star Dot).

(** The source's [copyright_pattern], used with [re.MULTILINE]: the anchor
    [^], then a group holding the word Copyright and a greedy [.] star, then
    the anchor [$].  The group encloses everything between the two
    zero-width anchors, so the text [re.findall] returns for a match is the
    whole match. *)
Definition copyright_pattern : regex :=
  Seq Bol (Seq (Lit "Copyright") (Seq (Star Dot) Eol)).

(** The four substitutions in the order of the source. *)
Definition comment_passes (code : string) : string :=
  let code := Re.sub slash_pattern code in
  let code := Re.sub block_pattern code in
  let code := Re.sub hash_pattern code in
  let code := Re.sub dash_pattern code in
  code.

(** The body of [remove_comments] between reading [code] and writing
    [preserved_code]. *)
Definition strip (code : string) (remove_all : bool) : string :=
  let code := comment_passes code in
  if negb remove_all then
    let copyright_notices := Re.findall copyright_pattern code in
    String.concat nl copyright_notices ++ nl ++ code
  else
    code.

(** * Vocabulary of the statements *)

(** [chop p s]: the text of [s] behind its prefix [p], if [p] is one. *)
Fixpoint chop (p s : string) : option string :=
  match p with
  | EmptyString => Some s
  | String a p' =>
      match s with
      | EmptyString => None
      | String c r => if (a =? c)%char then chop p' r else None
      end
  end.

Definition starts (p s : string) : bool :=
  match chop p s with
  | Some _ => true
  | None => false
  end.

(** [after_first p s]: the text behind the leftmost occurrence of [p]. *)
Fixpoint after_first (p s : string) : option string :=
  match chop p s with
  | Some r => Some r
  | None =>
      match s with
      | EmptyString => None
      | String _ r => after_first p r
      end
  end.

(** [has p s]: [p] occurs somewhere in [s]. *)
Definition has (p s : string) : bool :=
  match after_first p s with
  | Some _ => true
  | None => false
  end.

(** A comment marker of the glossary occurs in the text. *)
Definition has_marker (s : string) : bool :=
  has "//" s || has "/*" s || has "*/" s || has "#" s || has "--" s.

(** No newline in the text: it is (part of) one line. *)
Fixpoint one_line (s : string) : bool :=
  match s with
  | EmptyString => true
  | String c r => negb (is_nl c) && one_line r
  end.

(** The text from the end of its first line on (empty, or starting with the
    newline), and that first line. *)
Fixpoint drop_line (s : string) : string :=
  match s with
  | EmptyString => EmptyString
  | String c r => if is_nl c then s else drop_line r
  end.

Fixpoint take_line (s : string) : string :=
  match s with
  | EmptyString => EmptyString
  | String c r => if is_nl c then EmptyString else String c (take_line r)
  end.

(** The lines of a text, as Python's [s.split('\n')] gives them. *)
Fixpoint lines (s : string) : list string :=
  match s with
  | EmptyString => [EmptyString]
  | String c r =>
      if is_nl c then EmptyString :: lines r
      else
        match lines r with
        | l :: ls => String c l :: ls
        | [] => [String c EmptyString]
        end
  end.

(** The line-wise reading of the copyright scan: the lines that begin with
    the word, in order of appearance. *)
Definition is_copyright_line (l : string) : bool := starts "Copyright" l.

Definition copyright_lines (s : string) : list string :=
  filter is_copyright_line (lines s).

(** The text stands at a line end: it is empty or starts with the newline. *)
Definition at_line_end (s : string) : bool := Re.at_eol s.

(** The text ends with the character [c]. *)
Fixpoint last_is (c : ascii) (s : string) : bool :=
  match s with
  | EmptyString => false
  | String d r =>
      match r with
      | EmptyString => (c =? d)%char
      | String _ _ => last_is c r
      end
  end.

(** [out] is [s] with some characters deleted, order kept. *)
Inductive Subseq : string -> string -> Prop :=
| Subseq_nil : Subseq "" ""
| Subseq_keep c out s : Subseq out s -> Subseq (String c out) (String c s)
| Subseq_del c out s : Subseq out s -> Subseq out (String c s).

(** The four ways the program knows to write a comment around a text. *)
Inductive style : Type :=
| SlashSlash
| Block
| Hash
| DashDash.

Definition comment (st : style) (body : string) : string :=
  match st with
  | SlashSlash => "//" ++ body
  | Block => "/*" ++ body ++ "*/"
  | Hash => "#" ++ body
  | DashDash => "--" ++ body
  end.

(** The character a comment of that style begins with. *)
Definition marker_head (st : style) : ascii :=
  match st with
  | SlashSlash | Block => "/"%char
  | Hash => "#"%char
  | DashDash => "-"%char
  end.

(** The last line of a text: what stands behind its last newline. *)
Fixpoint last_line (s : string) : string :=
  match s with
  | EmptyString => EmptyString
  | String c r => if negb (is_nl c) && one_line r then s else last_line r
  end.

(** [in_comment st above body below]: in the text
    [above ++ comment st body ++ below] the comment is one for the passes.
    - A line comment runs to the end of its line.  Behind a hash or two
      dashes its body holds no block marker, which the block pass, running
      earlier, would pair with one outside.
    - A block comment is not opened behind two slashes on its line (nor
      directly behind one slash), the block comments opened before it are
      closed before it once the first pass has run, the last line of its body
      has no two slashes that would take the closing marker away, the body
      does not close the block itself, and no slash follows the closing
      marker. *)
Definition in_comment (st : style) (above body below : string) : bool :=
  match st with
  | SlashSlash => one_line body && at_line_end below
  | Hash | DashDash =>
      one_line body && at_line_end below
      && negb (has "/*" body) && negb (has "*/" body)
  | Block =>
      negb (has "//" (last_line above ++ "/"))
      && negb (has "/*" (Re.sub block_pattern (Re.sub slash_pattern above)))
      && negb (has "//" (last_line body))
      && negb (has "*/" body)
      && negb (starts "/" below)
  end.

(** * Notions used in the proofs *)

(** What the engine answers for each pattern, in closed form. *)
Definition line_m (marker : string) (s : string) : option string :=
  match chop marker s with
  | Some r => Some (drop_line r)
  | None => None
  end.

Definition block_m (s : string) : option string :=
  match chop "/*" s with
  | Some r => after_first "*/" r
  | None => None
  end.

Definition copyright_m (prev : option ascii) (s : string) : option string :=
  if Re.at_bol prev then line_m "Copyright" s else None.

Definition lift (f : string -> option string) : Re.matcher := fun _ s => f s.

(** [t] is what is left of [s] after some leading characters. *)
Inductive Suffix : string -> string -> Prop :=
| Suffix_refl s : Suffix s s
| Suffix_cons c t s : Suffix t s -> Suffix t (String c s).

(** A matcher makes progress when every match it reports is non-empty. *)
Definition progress (f : string -> option string) : Prop :=
  forall c r rest, f (String c r) = Some rest -> Suffix rest r.

(** The substitution loop run with a matcher that does not look at the
    character before the position. *)
Definition subf (f : string -> option string) (s : string) : string :=
  Re.sub_loop (lift f) 0 None s.

(** [fires f s]: the matcher answers somewhere in [s]. *)
Fixpoint fires (f : string -> option string) (s : string) : bool :=
  match f s with
  | Some _ => true
  | None =>
      match s with
      | EmptyString => false
      | String _ r => fires f r
      end
  end.

(** [Trunc out s]: [out] is [s] with, in some lines, everything from some
    column up to the end of that line deleted.  The passes of the three
    line-comment patterns are of this form. *)
Inductive Trunc : string -> string -> Prop :=
| Trunc_nil : Trunc "" ""
| Trunc_keep c out s : Trunc out s -> Trunc (String c out) (String c s)
| Trunc_cut out s : Trunc out (drop_line s) -> Trunc out s.

(** The scan restricted to the lines after the first. *)
Definition later_copyright_lines (s : string) : list string :=
  filter is_copyright_line (tl (lines s)).

(** Some non-empty end of [p] is a beginning of [v]. *)
Fixpoint tail_starts (p v : string) : bool :=
  match p with
  | EmptyString => false
  | String _ p' => starts p v || tail_starts p' v
  end.

(** The literal [p] starts nowhere inside [a] when [t] follows [a]. *)
Fixpoint joint_free (p a t : string) : bool :=
  match a with
  | EmptyString => true
  | String _ a' => negb (starts p (a ++ t)) && joint_free p a' t
  end.

(** Two texts that are the same, or the same but for the body of one line
    comment with the marker [m]: one has a body without block markers up to
    the end of the line, the other the bare marker. *)
Definition Hides (m t1 t2 : string) : Prop :=
  t1 = t2 \/
  exists X y Z,
    t1 = X ++ m ++ y ++ Z /\ t2 = X ++ m ++ Z /\
    one_line y = true /\ has "/*" y = false /\ has "*/" y = false /\
    at_line_end Z = true.

(** * The file-handling shell

    [detect_encoding], the whole of [remove_comments] and [main], with the
    interpreter and the operating system as a parameter: what they answer is
    not fixed here, only what the program does with the answers. *)

Module Shell.

(** The exceptions the handlers of [remove_comments] tell apart, with the
    text that [str(e)] gives. *)
Inductive exn : Type :=
| FileNotFoundError (msg : string)
| OtherException (msg : string).

Definition str (e : exn) : string :=
  match e with
  | FileNotFoundError msg => msg
  | OtherException msg => msg
  end.

(** The levels of [logging], with their numbers. *)
Inductive level : Type :=
| DEBUG
| INFO
| WARNING
| ERROR
| CRITICAL.

Definition level_no (l : level) : nat :=
  match l with
  | DEBUG => 10
  | INFO => 20
  | WARNING => 30
  | ERROR => 40
  | CRITICAL => 50
  end.

(** The calls that leave the program.  An [inl] is the exception raised.
    - [isfile] and [path_exists]: [os.path.isfile] and [os.path.exists];
    - [read_bytes]: opening a path in mode rb and reading it whole;
    - [chardet_detect]: the encoding entry of the answer of
      [chardet.detect], [None] when it is Python's [None];
    - [read_text]: [io.open] of a path in mode r with an encoding, and
      reading it whole;
    - [write_text]: [io.open] of a path in mode w with an encoding, writing
      a text and closing; the world may change even if an exception is
      raised on the way. *)
Record system (world : Type) : Type := {
  isfile : world -> string -> bool;
  path_exists : world -> string -> bool;
  read_bytes : world -> string -> exn + list Byte.byte;
  chardet_detect : list Byte.byte -> exn + option string;
  read_text : world -> string -> string -> exn + string;
  write_text : world -> string -> string -> string -> world * option exn
}.

Arguments isfile {world}.
Arguments path_exists {world}.
Arguments read_bytes {world}.
Arguments chardet_detect {world}.
Arguments read_text {world}.
Arguments write_text {world}.

(** What a run can change: the world outside, the level of the root logger
    and the records it has let through. *)
Record state (world : Type) : Type := {
  world_now : world;
  root_level : level;
  records : list (level * string)
}.

Arguments world_now {world}.
Arguments root_level {world}.
Arguments records {world}.

Definition set_world {world : Type} (w : world) (st : state world) : state world :=
  {| world_now := w; root_level := root_level st; records := records st |}.

(** [logging.getLogger().setLevel(l)] *)
Definition setLevel {world : Type} (l : level) (st : state world) : state world :=
  {| world_now := world_now st; root_level := l; records := records st |}.

(** A logging call at level [l]: the record is let through when [l] is at
    least the level of the root logger. *)
Definition log {world : Type} (l : level) (msg : string) (st : state world) : state world :=
  if (level_no (root_level st) <=? level_no l)%nat then
    {| world_now := world_now st; root_level := root_level st;
       records := (records st ++ [(l, msg)])%list |}
  else st.

Definition logging_info {world : Type} := @log world INFO.
Definition logging_warning {world : Type} := @log world WARNING.
Definition logging_error {world : Type} := @log world ERROR.

Definition detect_encoding {world : Type} (sys : system world)
    (file_path : string) (st : state world) : option string * state world :=
  match read_bytes sys (world_now st) file_path with
  | inl e => (None, logging_error ("Error detecting encoding: " ++ str e) st)
  | inr raw_data =>
      match chardet_detect sys raw_data with
      | inl e => (None, logging_error ("Error detecting encoding: " ++ str e) st)
      | inr encoding => (encoding, st)
      end
  end.

(** Python's truth value of the encoding: [None] and the empty string are
    false. *)
Definition truthy (encoding : option string) : bool :=
  match encoding with
  | Some (String _ _) => true
  | _ => false
  end.

Definition or_utf8 (encoding : option string) : string :=
  match encoding with
  | Some (String c r) => String c r
  | _ => "utf-8"
  end.

(** The two [except] clauses of [remove_comments]. *)
Definition handlers {world : Type} (input_file : string) (e : exn)
    (st : state world) : state world :=
  match e with
  | FileNotFoundError _ => logging_error ("File not found: " ++ input_file) st
  | OtherException _ => logging_error ("An error occurred: " ++ str e) st
  end.

Definition remove_comments {world : Type} (sys : system world)
    (input_file output_file : string) (remove_all : bool)
    (st : state world) : state world :=
  let (detected, st) := detect_encoding sys input_file st in
  let st :=
    if truthy detected then st
    else logging_error ("Could not detect encoding for " ++ input_file
                        ++ ".  Falling back to utf-8 but this may cause issues.") st in
  let encoding := or_utf8 detected in
  match read_text sys (world_now st) input_file encoding with
  | inl e => handlers input_file e st
  | inr code =>
      let preserved_code := strip code remove_all in
      match write_text sys (world_now st) output_file encoding preserved_code with
      | (w, Some e) => handlers input_file e (set_world w st)
      | (w, None) =>
          logging_info ("Comments removed from " ++ input_file
                        ++ " and saved to " ++ output_file) (set_world w st)
      end
  end.

(** The result of [parser.parse_args()]. *)
Record args : Type := {
  input_file : string;
  output_file : string;
  remove_all : bool;
  log_level : level
}.

Definition main {world : Type} (sys : system world) (a : args)
    (st : state world) : state world :=
  let st := setLevel (log_level a) st in
  if negb (isfile sys (world_now st) (input_file a)) then
    logging_error ("Error: Input file '" ++ input_file a ++ "' does not exist.") st
  else
    let st :=
      if path_exists sys (world_now st) (output_file a) then
        logging_warning ("Warning: Output file '" ++ output_file a
                         ++ "' already exists. It will be overwritten.") st
      else st in
    remove_comments sys (input_file a) (output_file a) (remove_all a) st.

(** The records a run has added. *)
Definition new_records {world : Type} (before after : state world) : list (level * string) :=
  skipn (List.length (records before)) (records after).

(** A small system to try the statements on: the world is a list of paths
    with their texts, the newest first; every text is readable in every
    encoding; the detector knows nothing about an empty file; there is no
    directory [nodir]. *)
Fixpoint lookup (w : list (string * string)) (p : string) : option string :=
  match w with
  | [] => None
  | (q, s) :: w' => if (q =? p)%string then Some s else lookup w' p
  end.

Definition no_such_file (p : string) : exn :=
  FileNotFoundError ("[Errno 2] No such file or directory: '" ++ p ++ "'").

Definition demo : system (list (string * string)) := {|
  isfile := fun w p => match lookup w p with Some _ => true | None => false end;
  path_exists := fun w p => match lookup w p with Some _ => true | None => false end;
  read_bytes := fun w p =>
    match lookup w p with
    | Some s => inr (list_byte_of_string s)
    | None => inl (no_such_file p)
    end;
  chardet_detect := fun raw =>
    match raw with
    | [] => inr None
    | _ :: _ => inr (Some "ascii")
    end;
  read_text := fun w p _ =>
    match lookup w p with
    | Some s => inr s
    | None => inl (no_such_file p)
    end;
  write_text := fun w p _ s =>
    if starts "nodir/" p then (w, Some (no_such_file p)) else ((p, s) :: w, None)
|}.

Definition start (w : list (string * string)) : state (list (string * string)) :=
  {| world_now := w; root_level := INFO; records := [] |}.

End Shell.

#[local] Hint Constructors Suffix Subseq Trunc : core.

(** * Basic facts about strings *)

Lemma append_nil_r (s : string) : s ++ "" = s.
Proof. induction s as [|c s IH]; simpl; congruence. Qed.

Lemma append_assoc (a b c : string) : (a ++ b) ++ c = a ++ b ++ c.
Proof. induction a as [|x a IH]; simpl; congruence. Qed.

Lemma length_append (a b : string) :
  String.length (a ++ b) = String.length a + String.length b.
Proof. induction a as [|x a IH]; simpl; congruence. Qed.

Lemma is_nl_true (c : ascii) : is_nl c = true -> c = NL.
Proof. apply Ascii.eqb_eq. Qed.

Lemma is_nl_NL : is_nl NL = true.
Proof. reflexivity. Qed.

Lemma chop_sound (p s r : string) : chop p s = Some r -> s = p ++ r.
Proof.
  revert s; induction p as [|a p IH]; intros s H; simpl in *.
  - congruence.
  - destruct s as [|c s]; [discriminate|].
    destruct (Ascii.eqb_spec a c) as [->|]; [|discriminate].
    f_equal; auto.
Qed.

Lemma chop_append (p r : string) : chop p (p ++ r) = Some r.
Proof.
  induction p as [|a p IH]; simpl; [reflexivity|].
  rewrite Ascii.eqb_refl; exact IH.
Qed.

Lemma chop_iff (p s r : string) : chop p s = Some r <-> s = p ++ r.
Proof. split; [apply chop_sound | intros ->; apply chop_append]. Qed.

Lemma starts_iff (p s : string) : starts p s = true <-> exists r, s = p ++ r.
Proof.
  unfold starts; split.
  - destruct (chop p s) as [r|] eqn:E; [|discriminate].
    intros _; exists r; exact (chop_sound _ _ _ E).
  - intros [r ->]; now rewrite chop_append.
Qed.

Lemma after_first_sound (p s r : string) :
  after_first p s = Some r -> exists a, s = a ++ p ++ r.
Proof.
  induction s as [|c s IH]; simpl.
  - destruct (chop p "") as [r'|] eqn:E; [|discriminate].
    intros [= ->]; exists ""; exact (chop_sound _ _ _ E).
  - destruct (chop p (String c s)) as [r'|] eqn:E.
    + intros [= ->]; exists ""; exact (chop_sound _ _ _ E).
    + intros H; destruct (IH H) as [a ->]; now exists (String c a).
Qed.

Lemma after_first_eq (p s : string) :
  after_first p s =
  match chop p s with
  | Some r => Some r
  | None => match s with EmptyString => None | String _ r => after_first p r end
  end.
Proof. destruct s; reflexivity. Qed.

Lemma has_append_intro (p a b : string) : has p (a ++ p ++ b) = true.
Proof.
  unfold has; induction a as [|c a IH]; simpl.
  - rewrite after_first_eq, chop_append; reflexivity.
  - destruct (chop p (String c (a ++ p ++ b))); [reflexivity|exact IH].
Qed.

(** [has] is substring occurrence. *)
Lemma has_iff (p s : string) : has p s = true <-> exists a b, s = a ++ p ++ b.
Proof.
  split.
  - unfold has; destruct (after_first p s) as [r|] eqn:E; [|discriminate].
    intros _; destruct (after_first_sound _ _ _ E) as [a ->]; now exists a, r.
  - intros (a & b & ->); apply has_append_intro.
Qed.

(** * The matches of the five patterns *)

Lemma lit_chop (l : string) (k : Re.cont) (g : string -> option string) :
  (forall prev s, k prev s = g s) ->
  forall prev s,
    Re.lit l k prev s = match chop l s with Some r => g r | None => None end.
Proof.
  intros Hk; induction l as [|a l IH]; intros prev s; simpl.
  - apply Hk.
  - destruct s as [|c r]; [reflexivity|].
    destruct (a =? c)%char; [apply IH | reflexivity].
Qed.

Lemma star_greedy_dot (k : Re.cont) :
  (forall prev s, Re.at_eol s = true -> k prev s = Some s) ->
  forall prev s, Re.star_greedy Dot k prev s = Some (drop_line s).
Proof.
  intros Hk prev s; revert prev; induction s as [|c r IH]; intros prev; simpl.
  - now apply Hk.
  - destruct (is_nl c) eqn:E; simpl.
    + apply Hk; simpl; exact E.
    + now rewrite IH.
Qed.

Lemma star_lazy_any (p : string) (prev : option ascii) (s : string) :
  Re.star_lazy AnyChar (Re.lit p (fun _ rest => Some rest)) prev s = after_first p s.
Proof.
  revert prev; induction s as [|c r IH]; intros prev.
  - simpl. rewrite (lit_chop p _ Some) by reflexivity.
    destruct (chop p ""); reflexivity.
  - cbn [Re.star_lazy after_first]. rewrite (lit_chop p _ Some) by reflexivity.
    destruct (chop p (String c r)); [reflexivity|]. simpl. apply IH.
Qed.

Lemma match_at_line (marker : string) (prev : option ascii) (s : string) :
  Re.match_at (Seq (Lit marker) (Star Dot)) prev s = line_m marker s.
Proof.
  unfold Re.match_at, line_m; simpl.
  rewrite (lit_chop marker _ (fun r => Some (drop_line r))).
  - reflexivity.
  - intros p r; now apply star_greedy_dot.
Qed.

Lemma match_at_block (prev : option ascii) (s : string) :
  Re.match_at block_pattern prev s = block_m s.
Proof.
  unfold Re.match_at, block_m, block_pattern. cbn [Re.run].
  rewrite (lit_chop "/*" _ (after_first "*/")).
  - reflexivity.
  - intros p r; apply star_lazy_any.
Qed.

Lemma match_at_copyright (prev : option ascii) (s : string) :
  Re.match_at copyright_pattern prev s = copyright_m prev s.
Proof.
  unfold Re.match_at, copyright_m, copyright_pattern, line_m. cbn [Re.run].
  destruct (Re.at_bol prev); [|reflexivity].
  rewrite (lit_chop "Copyright" _ (fun r => Some (drop_line r))).
  - reflexivity.
  - intros p r; apply star_greedy_dot.
    intros p' r' H; now rewrite H.
Qed.

(** * The substitution loop *)

Lemma Suffix_length (t s : string) : Suffix t s -> String.length t <= String.length s.
Proof. induction 1; simpl; lia. Qed.

Lemma Suffix_trans (a b c : string) : Suffix a b -> Suffix b c -> Suffix a c.
Proof. intros Hab Hbc; induction Hbc; auto. Qed.

Lemma Suffix_drop_line (s : string) : Suffix (drop_line s) s.
Proof. induction s as [|c s IH]; simpl; [auto|]. destruct (is_nl c); auto. Qed.

Lemma chop_Suffix (p s r : string) : chop p s = Some r -> Suffix r s.
Proof.
  revert s; induction p as [|a p IH]; intros s; simpl.
  - intros [= ->]; auto.
  - destruct s as [|c s]; [discriminate|].
    destruct (a =? c)%char; [|discriminate]. auto.
Qed.

Lemma chop_progress (a : ascii) (p : string) (c : ascii) (s r : string) :
  chop (String a p) (String c s) = Some r -> Suffix r s.
Proof. simpl; destruct (a =? c)%char; [apply chop_Suffix | discriminate]. Qed.

Lemma after_first_Suffix (p s r : string) : after_first p s = Some r -> Suffix r s.
Proof.
  induction s as [|c s IH]; simpl.
  - destruct (chop p "") eqn:E; [|discriminate].
    intros [= ->]; eapply chop_Suffix; eauto.
  - destruct (chop p (String c s)) eqn:E.
    + intros [= ->]; eapply chop_Suffix; eauto.
    + auto.
Qed.

Lemma line_m_progress (a : ascii) (p : string) : progress (line_m (String a p)).
Proof.
  intros c r rest; unfold line_m.
  destruct (chop (String a p) (String c r)) as [t|] eqn:E; [|discriminate].
  intros [= <-]. eapply Suffix_trans; [apply Suffix_drop_line|].
  eapply chop_progress; eauto.
Qed.

Lemma block_m_progress : progress block_m.
Proof.
  intros c r rest; unfold block_m.
  destruct (chop "/*" (String c r)) as [t|] eqn:E; [|discriminate].
  intros H. eapply Suffix_trans; [eapply after_first_Suffix; eauto|].
  eapply chop_progress; eauto.
Qed.

(** No match is empty, so the loop never meets the empty-match branch. *)
Lemma sub_patterns_progress :
  progress (line_m "//") /\ progress block_m /\
  progress (line_m "#") /\ progress (line_m "--").
Proof. repeat split; try apply line_m_progress; apply block_m_progress. Qed.

Section Loop.

Variable f : string -> option string.

Lemma sub_loop_prev (k : nat) (p q : option ascii) (s : string) :
  Re.sub_loop (lift f) k p s = Re.sub_loop (lift f) k q s.
Proof. destruct s; reflexivity. Qed.

Lemma sub_loop_skip (rest r : string) (prev : option ascii) :
  Suffix rest r ->
  Re.sub_loop (lift f) (String.length r - String.length rest) prev r = subf f rest.
Proof.
  intros H; revert prev; induction H as [s|c t s H IH]; intros prev.
  - rewrite Nat.sub_diag. apply sub_loop_prev.
  - pose proof (Suffix_length _ _ H).
    replace (String.length (String c s) - String.length t)
      with (S (String.length s - String.length t)) by (cbn [String.length]; lia).
    simpl. apply IH.
Qed.

Hypothesis f_progress : progress f.

(** The loop, one match at a time. *)
Lemma subf_eq (c : ascii) (r : string) :
  subf f (String c r) =
  match f (String c r) with
  | Some rest => subf f rest
  | None => String c (subf f r)
  end.
Proof.
  unfold subf at 1; simpl. unfold lift at 1.
  destruct (f (String c r)) as [rest|] eqn:E.
  - pose proof (f_progress _ _ _ E) as HS.
    pose proof (Suffix_length _ _ HS).
    unfold Re.consumed.
    replace (String.length (String c r) - String.length rest)
      with (S (String.length r - String.length rest)) by (cbn [String.length]; lia).
    now apply sub_loop_skip.
  - f_equal. apply sub_loop_prev.
Qed.

(** Induction along the run of the loop. *)
Lemma subf_ind (P : string -> string -> Prop) :
  P "" "" ->
  (forall c r, f (String c r) = None -> P r (subf f r) -> P (String c r) (String c (subf f r))) ->
  (forall c r rest, f (String c r) = Some rest -> Suffix rest r ->
     P rest (subf f rest) -> P (String c r) (subf f rest)) ->
  forall s, P s (subf f s).
Proof.
  intros H0 Hkeep Hdrop s.
  remember (String.length s) as n eqn:Hn.
  revert s Hn; induction n as [n IH] using lt_wf_ind; intros s Hn.
  destruct s as [|c r]; [exact H0|].
  rewrite subf_eq. destruct (f (String c r)) as [rest|] eqn:E.
  - pose proof (f_progress _ _ _ E) as HS.
    apply Hdrop; auto.
    apply (IH (String.length rest)); [|reflexivity].
    apply Suffix_length in HS; simpl in Hn; lia.
  - apply Hkeep; auto.
    apply (IH (String.length r)); [|reflexivity]. simpl in Hn; lia.
Qed.

Lemma fires_eq (s : string) :
  fires f s =
  match f s with
  | Some _ => true
  | None => match s with EmptyString => false | String _ r => fires f r end
  end.
Proof. destruct s; reflexivity. Qed.

Lemma fires_Suffix (t s : string) : Suffix t s -> fires f t = true -> fires f s = true.
Proof.
  induction 1 as [|c t s H IH]; [auto|]. intros Ht.
  rewrite fires_eq. destruct (f (String c s)); auto.
Qed.

(** Where the matcher never answers, the loop changes nothing. *)
Lemma subf_id (s : string) : fires f s = false -> subf f s = s.
Proof.
  induction s as [|c r IH]; [reflexivity|].
  rewrite fires_eq, subf_eq. destruct (f (String c r)); [discriminate|].
  intros H; f_equal; auto.
Qed.

End Loop.

(** The loop only deletes, whatever the matcher. *)
Lemma sub_loop_Subseq (m : Re.matcher) (s : string) :
  forall k prev, Subseq (Re.sub_loop m k prev s) s.
Proof.
  induction s as [|c r IH]; intros k prev; simpl; [auto|].
  destruct k; [|auto].
  destruct (m prev (String c r)); [|auto].
  destruct (Re.consumed (String c r) s); auto.
Qed.

Lemma sub_loop_ext (m1 m2 : Re.matcher) :
  (forall prev s, m1 prev s = m2 prev s) ->
  forall s k prev, Re.sub_loop m1 k prev s = Re.sub_loop m2 k prev s.
Proof.
  intros H; induction s as [|c r IH]; intros k prev; simpl; [reflexivity|].
  destruct k; [|apply IH].
  rewrite H. destruct (m2 prev (String c r)); [|now rewrite IH].
  destruct (Re.consumed (String c r) s); now rewrite IH.
Qed.

(** The four passes, through the closed forms of their matches. *)
Lemma sub_slash (s : string) : Re.sub slash_pattern s = subf (line_m "//") s.
Proof. apply sub_loop_ext; intros; apply match_at_line. Qed.

Lemma sub_block (s : string) : Re.sub block_pattern s = subf block_m s.
Proof. apply sub_loop_ext; intros; apply match_at_block. Qed.

Lemma sub_hash (s : string) : Re.sub hash_pattern s = subf (line_m "#") s.
Proof. apply sub_loop_ext; intros; apply match_at_line. Qed.

Lemma sub_dash (s : string) : Re.sub dash_pattern s = subf (line_m "--") s.
Proof. apply sub_loop_ext; intros; apply match_at_line. Qed.

(** * Occurrences and line ends *)

Lemma has_eq (p s : string) :
  has p s = starts p s || match s with EmptyString => false | String _ r => has p r end.
Proof.
  unfold has, starts; rewrite after_first_eq.
  destruct (chop p s); destruct s; reflexivity.
Qed.

Lemma has_Suffix (p t s : string) : Suffix t s -> has p t = true -> has p s = true.
Proof.
  induction 1 as [|c t s H IH]; [auto|]. intros Ht.
  rewrite has_eq, (IH Ht). apply orb_true_r.
Qed.

Lemma has_Suffix_false (p t s : string) : Suffix t s -> has p s = false -> has p t = false.
Proof.
  intros HS H; destruct (has p t) eqn:E; [|reflexivity].
  rewrite (has_Suffix _ _ _ HS E) in H; discriminate.
Qed.

Lemma drop_line_at_line_end (s : string) : at_line_end (drop_line s) = true.
Proof.
  induction s as [|c s IH]; simpl; [reflexivity|].
  destruct (is_nl c) eqn:E; [simpl; exact E | exact IH].
Qed.

Lemma drop_line_append (p t : string) : one_line p = true -> drop_line (p ++ t) = drop_line t.
Proof.
  induction p as [|a p IH]; simpl; [reflexivity|].
  destruct (is_nl a); simpl; [discriminate | exact IH].
Qed.

Lemma drop_line_fixed (s : string) : at_line_end s = true -> drop_line s = s.
Proof. destruct s as [|c s]; simpl; [reflexivity|]. now intros ->. Qed.

(** A pattern without a newline does not start at a line end. *)
Lemma chop_at_line_end (a : ascii) (p s : string) :
  one_line (String a p) = true -> at_line_end s = true -> chop (String a p) s = None.
Proof.
  simpl; intros Hp Hs. destruct s as [|c s]; [reflexivity|]. simpl in Hs.
  destruct (Ascii.eqb_spec a c) as [->|]; [|reflexivity].
  rewrite Hs in Hp; discriminate.
Qed.

(** * Deleting ends of lines *)

Lemma Trunc_chop (out s : string) :
  Trunc out s ->
  forall a p o2, one_line (String a p) = true -> chop (String a p) out = Some o2 ->
  exists s2, chop (String a p) s = Some s2 /\ Trunc o2 s2.
Proof.
  induction 1 as [|c out s H IH|out s H IH]; intros a p o2 Hp Ho.
  - discriminate.
  - simpl in Ho |- *. destruct (a =? c)%char; [|discriminate].
    destruct p as [|b p].
    + injection Ho as <-. exists s; split; [reflexivity | exact H].
    + apply (IH b p); auto. simpl in Hp. now apply andb_prop in Hp.
  - destruct (IH a p o2 Hp Ho) as (s2 & Hs2 & _).
    rewrite chop_at_line_end in Hs2; [discriminate | auto | apply drop_line_at_line_end].
Qed.

Lemma Trunc_starts (out s : string) (a : ascii) (p : string) :
  Trunc out s -> one_line (String a p) = true ->
  starts (String a p) s = false -> starts (String a p) out = false.
Proof.
  intros HT Hp Hs. unfold starts in *.
  destruct (chop (String a p) out) as [o2|] eqn:E; [|reflexivity].
  destruct (Trunc_chop _ _ HT _ _ _ Hp E) as (s2 & Hs2 & _).
  rewrite Hs2 in Hs; discriminate.
Qed.

Lemma Trunc_has (out s : string) (a : ascii) (p : string) :
  Trunc out s -> one_line (String a p) = true ->
  has (String a p) s = false -> has (String a p) out = false.
Proof.
  intros HT Hp. induction HT as [|c out s H IH|out s H IH]; intros Hs.
  - exact Hs.
  - rewrite has_eq in Hs |- *. apply orb_false_elim in Hs as [Hs1 Hs2].
    rewrite (Trunc_starts (String c out) (String c s)), IH; auto.
  - apply IH. eapply has_Suffix_false; [apply Suffix_drop_line | exact Hs].
Qed.

Lemma Trunc_fires_block (out s : string) :
  Trunc out s -> fires block_m s = false -> fires block_m out = false.
Proof.
  induction 1 as [|c out s H IH|out s H IH]; intros Hs.
  - exact Hs.
  - rewrite fires_eq in Hs |- *.
    destruct (block_m (String c s)) as [|] eqn:Es; [discriminate|].
    rewrite (IH Hs).
    destruct (block_m (String c out)) as [rest|] eqn:Eo; [|reflexivity].
    exfalso. unfold block_m in Es, Eo.
    destruct (chop "/*" (String c out)) as [o2|] eqn:Co; [|discriminate].
    destruct (Trunc_chop (String c out) (String c s) (Trunc_keep _ _ _ H)
                "/"%char "*" _ eq_refl Co) as (s2 & Cs & HT).
    rewrite Cs in Es.
    assert (Hh : has "*/" s2 = false) by (unfold has; now rewrite Es).
    apply (Trunc_has _ _ "*"%char "/" HT eq_refl) in Hh.
    unfold has in Hh; rewrite Eo in Hh; discriminate.
  - apply IH. destruct (fires block_m (drop_line s)) eqn:E; [|reflexivity].
    rewrite (fires_Suffix _ _ _ (Suffix_drop_line s) E) in Hs; discriminate.
Qed.

(** * The line-comment passes *)

Lemma fires_line (mk s : string) : fires (line_m mk) s = has mk s.
Proof.
  induction s as [|c s IH].
  - rewrite has_eq; unfold starts; simpl; unfold line_m.
    destruct (chop mk ""); reflexivity.
  - rewrite fires_eq, has_eq, IH. unfold starts, line_m.
    destruct (chop mk (String c s)); reflexivity.
Qed.

Lemma line_pass_id (a : ascii) (p s : string) :
  has (String a p) s = false -> subf (line_m (String a p)) s = s.
Proof.
  intros H; apply subf_id; [apply line_m_progress | now rewrite fires_line].
Qed.

Lemma line_pass_spec (a : ascii) (p : string) :
  one_line (String a p) = true ->
  forall s, Trunc (subf (line_m (String a p)) s) s /\
            has (String a p) (subf (line_m (String a p)) s) = false.
Proof.
  intros Hp.
  apply (subf_ind _ (line_m_progress a p)
           (fun s out => Trunc out s /\ has (String a p) out = false)).
  - split; [constructor | reflexivity].
  - intros c r Hf [HT Hh]. split; [auto|].
    rewrite has_eq, Hh, orb_false_r.
    apply (Trunc_starts _ (String c r)); auto.
    unfold line_m in Hf. unfold starts.
    destruct (chop (String a p) (String c r)); [discriminate | reflexivity].
  - intros c r rest Hf _ [HT Hh]. split; [|exact Hh].
    apply Trunc_cut. unfold line_m in Hf.
    destruct (chop (String a p) (String c r)) as [t|] eqn:E; [|discriminate].
    injection Hf as <-.
    rewrite (chop_sound _ _ _ E), drop_line_append by exact Hp. exact HT.
Qed.

(** * The block-comment pass *)

Lemma starts_cons (a : ascii) (p : string) (c : ascii) (s : string) :
  starts (String a p) (String c s) = (a =? c)%char && starts p s.
Proof. unfold starts; simpl. destruct (a =? c)%char; reflexivity. Qed.

Lemma starts_nil (s : string) : starts "" s = true.
Proof. reflexivity. Qed.

Lemma block_m_open (s : string) :
  block_m (String "/" (String "*" s)) = after_first "*/" s.
Proof. reflexivity. Qed.

Lemma block_m_starts (s rest : string) : block_m s = Some rest -> starts "/*" s = true.
Proof.
  unfold block_m, starts. destruct (chop "/*" s); [reflexivity | discriminate].
Qed.

(** Without a closing marker, or without an opening one, nothing matches. *)
Lemma no_close_no_fire (s : string) : has "*/" s = false -> fires block_m s = false.
Proof.
  induction s as [|c s IH]; [reflexivity|].
  intros H. rewrite fires_eq.
  assert (Hm : block_m (String c s) = None).
  { unfold block_m. destruct (chop "/*" (String c s)) as [r|] eqn:E; [|reflexivity].
    pose proof (has_Suffix_false _ _ _ (chop_Suffix _ _ _ E) H) as Hr.
    unfold has in Hr. destruct (after_first "*/" r); [discriminate | reflexivity]. }
  rewrite Hm. apply IH.
  eapply has_Suffix_false; [|exact H]. auto.
Qed.

Lemma no_open_no_fire (s : string) : has "/*" s = false -> fires block_m s = false.
Proof.
  induction s as [|c s IH]; [reflexivity|].
  rewrite has_eq, fires_eq. intros H; apply orb_false_elim in H as [H1 H2].
  destruct (block_m (String c s)) as [rest|] eqn:E; [|auto].
  apply block_m_starts in E. congruence.
Qed.

(** The pass never puts a slash in front that was not there. *)
Lemma block_pass_head (s : string) :
  starts "/" (subf block_m s) = true -> starts "/" s = true.
Proof.
  destruct s as [|c r]; [auto|].
  rewrite (subf_eq _ block_m_progress).
  destruct (block_m (String c r)) as [rest|] eqn:E.
  - intros _. apply block_m_starts in E.
    rewrite starts_cons in E |- *. apply andb_prop in E as [-> _]. reflexivity.
  - rewrite !starts_cons, !starts_nil. auto.
Qed.

Lemma block_pass_spec (s : string) :
  has "//" s = false ->
  has "//" (subf block_m s) = false /\ fires block_m (subf block_m s) = false.
Proof.
  apply (subf_ind _ block_m_progress
           (fun s out => has "//" s = false ->
                         has "//" out = false /\ fires block_m out = false)).
  - auto.
  - intros c r Hm IH H.
    rewrite has_eq in H; apply orb_false_elim in H as [H1 H2].
    destruct (IH H2) as [Hh Hf]. split.
    + rewrite has_eq, Hh, orb_false_r.
      rewrite starts_cons in H1 |- *.
      destruct ("/" =? c)%char; [simpl in *|reflexivity].
      destruct (starts "/" (subf block_m r)) eqn:E; [|reflexivity].
      apply block_pass_head in E. congruence.
    + rewrite fires_eq, Hf.
      destruct (block_m (String c (subf block_m r))) as [rest|] eqn:E; [|reflexivity].
      exfalso.
      pose proof (block_m_starts _ _ E) as Hs.
      rewrite starts_cons in Hs; apply andb_prop in Hs as [Hc Hs].
      apply Ascii.eqb_eq in Hc; subst c.
      destruct r as [|d r2]; [discriminate|].
      rewrite (subf_eq _ block_m_progress) in E, Hs.
      destruct (block_m (String d r2)) as [rest'|] eqn:Ed.
      * apply block_m_starts in Ed. rewrite starts_cons in Ed.
        apply andb_prop in Ed as [Hd _].
        rewrite !starts_cons, Hd in H1. discriminate.
      * rewrite starts_cons in Hs; apply andb_prop in Hs as [Hd _].
        apply Ascii.eqb_eq in Hd; subst d.
        rewrite block_m_open in Hm, E.
        assert (Hn : fires block_m r2 = false).
        { apply no_close_no_fire; unfold has; now rewrite Hm. }
        rewrite (subf_id _ block_m_progress _ Hn) in E. congruence.
  - intros c r rest Hm HS IH H. apply IH.
    eapply has_Suffix_false; [|exact H]. auto.
Qed.

Lemma block_pass_id (s : string) : fires block_m s = false -> subf block_m s = s.
Proof. apply subf_id, block_m_progress. Qed.

(** * The four passes together *)

Lemma comment_passes_eq (s : string) :
  comment_passes s =
  subf (line_m "--") (subf (line_m "#") (subf block_m (subf (line_m "//") s))).
Proof.
  unfold comment_passes. now rewrite sub_slash, sub_block, sub_hash, sub_dash.
Qed.

(** What is left after the passes gives none of them anything to do. *)
Lemma comment_passes_clean (s : string) :
  has "//" (comment_passes s) = false /\
  fires block_m (comment_passes s) = false /\
  has "#" (comment_passes s) = false /\
  has "--" (comment_passes s) = false.
Proof.
  rewrite comment_passes_eq.
  destruct (line_pass_spec "/" "/" eq_refl s) as [_ H1].
  destruct (block_pass_spec _ H1) as [H2 B2].
  set (s2 := subf block_m _) in *.
  destruct (line_pass_spec "#" "" eq_refl s2) as [T3 H3].
  set (s3 := subf (line_m "#") s2) in *.
  destruct (line_pass_spec "-" "-" eq_refl s3) as [T4 H4].
  repeat split.
  - apply (Trunc_has _ _ "/"%char "/" T4 eq_refl).
    apply (Trunc_has _ _ "/"%char "/" T3 eq_refl). exact H2.
  - apply (Trunc_fires_block _ _ T4). apply (Trunc_fires_block _ _ T3). exact B2.
  - apply (Trunc_has _ _ "#"%char "" T4 eq_refl). exact H3.
  - exact H4.
Qed.

Lemma comment_passes_id (s : string) :
  has "//" s = false -> fires block_m s = false ->
  has "#" s = false -> has "--" s = false ->
  comment_passes s = s.
Proof.
  intros H1 H2 H3 H4. rewrite comment_passes_eq.
  rewrite (line_pass_id "/" "/") by exact H1.
  rewrite block_pass_id by exact H2.
  rewrite (line_pass_id "#" "") by exact H3.
  apply (line_pass_id "-" "-"); exact H4.
Qed.

Lemma has_marker_false (s : string) :
  has_marker s = false ->
  has "//" s = false /\ has "/*" s = false /\ has "*/" s = false /\
  has "#" s = false /\ has "--" s = false.
Proof.
  unfold has_marker; intros H.
  repeat (apply orb_false_elim in H as [H ?]). auto.
Qed.

Lemma comment_passes_marker_free (s : string) :
  has_marker s = false -> comment_passes s = s.
Proof.
  intros H; apply has_marker_false in H as (H1 & H2 & H3 & H4 & H5).
  apply comment_passes_id; auto using no_open_no_fire.
Qed.

Lemma Subseq_trans (a b c : string) : Subseq a b -> Subseq b c -> Subseq a c.
Proof.
  intros Hab Hbc; revert a Hab.
  induction Hbc as [|x b c H IH|x b c H IH]; intros a Hab; auto.
  inversion Hab; subst; auto.
Qed.

Lemma Subseq_length (a b : string) : Subseq a b -> String.length a <= String.length b.
Proof. induction 1; simpl; lia. Qed.

Lemma sub_Subseq (re : Re.regex) (s : string) : Subseq (Re.sub re s) s.
Proof. apply sub_loop_Subseq. Qed.

Lemma comment_passes_Subseq (s : string) : Subseq (comment_passes s) s.
Proof.
  unfold comment_passes.
  do 3 (eapply Subseq_trans; [apply sub_Subseq|]). apply sub_Subseq.
Qed.

(** * The copyright scan *)

Lemma lines_eq (s : string) : lines s = take_line s :: tl (lines s).
Proof.
  induction s as [|c s IH]; simpl; [reflexivity|].
  destruct (is_nl c); [reflexivity|]. now rewrite IH.
Qed.

Lemma tl_lines_cons (c : ascii) (s : string) :
  tl (lines (String c s)) = if is_nl c then lines s else tl (lines s).
Proof. simpl. destruct (is_nl c); [reflexivity|]. now rewrite lines_eq. Qed.

Lemma length_take_drop (s : string) :
  String.length s = String.length (take_line s) + String.length (drop_line s).
Proof.
  induction s as [|c s IH]; simpl; [reflexivity|].
  destruct (is_nl c); simpl; lia.
Qed.

Lemma substring_take_line (s : string) :
  substring 0 (String.length (take_line s)) s = take_line s.
Proof.
  induction s as [|c s IH]; simpl; [reflexivity|].
  destruct (is_nl c); simpl; [reflexivity | now rewrite IH].
Qed.

Lemma starts_take_line (p s : string) :
  one_line p = true -> starts p (take_line s) = starts p s.
Proof.
  revert s; induction p as [|a p IH]; intros s Hp; [reflexivity|].
  simpl in Hp; apply andb_prop in Hp as [Ha Hp].
  destruct s as [|c s]; [reflexivity|]. simpl.
  destruct (is_nl c) eqn:Ec.
  - rewrite starts_cons. apply is_nl_true in Ec; subst c.
    destruct (Ascii.eqb_spec a NL) as [->|]; [discriminate | reflexivity].
  - rewrite !starts_cons, IH by exact Hp. reflexivity.
Qed.

Lemma take_line_one_line (s : string) : one_line s = true -> take_line s = s.
Proof.
  induction s as [|c s IH]; simpl; [reflexivity|].
  destruct (is_nl c); simpl; [discriminate|]. intros H; now rewrite IH.
Qed.

Lemma lines_one_line (s : string) : one_line s = true -> lines s = [s].
Proof.
  induction s as [|c s IH]; simpl; [reflexivity|].
  destruct (is_nl c); simpl; [discriminate|]. intros H; now rewrite IH.
Qed.

Lemma lines_append_nl (l r : string) :
  one_line l = true -> lines (l ++ nl ++ r) = l :: lines r.
Proof.
  change (nl ++ r) with (String NL r).
  induction l as [|c l IH]; simpl; [reflexivity|].
  destruct (is_nl c); simpl; [discriminate|]. intros H; now rewrite IH.
Qed.

Lemma copyright_lines_eq (s : string) :
  copyright_lines s =
  if starts "Copyright" s then take_line s :: later_copyright_lines s
  else later_copyright_lines s.
Proof.
  unfold copyright_lines, later_copyright_lines. rewrite lines_eq at 1. simpl.
  unfold is_copyright_line at 1. now rewrite starts_take_line.
Qed.

Lemma later_copyright_lines_cons (c : ascii) (s : string) :
  later_copyright_lines (String c s) =
  if is_nl c then copyright_lines s else later_copyright_lines s.
Proof.
  unfold later_copyright_lines, copyright_lines. rewrite tl_lines_cons.
  destruct (is_nl c); reflexivity.
Qed.

Lemma starts_copyright_not_nl (c : ascii) (s : string) :
  starts "Copyright" (String c s) = true -> is_nl c = false.
Proof.
  rewrite starts_cons; intros H; apply andb_prop in H as [H _].
  apply Ascii.eqb_eq in H; now subst c.
Qed.

Lemma findall_loop_copyright (s : string) :
  forall k prev,
    k <= String.length (take_line s) ->
    Re.findall_loop copyright_m k prev s =
    if (k =? 0)%nat && Re.at_bol prev then copyright_lines s else later_copyright_lines s.
Proof.
  induction s as [|c r IH]; intros k prev Hk.
  - simpl. unfold copyright_m.
    destruct (Re.at_bol prev); now destruct (k =? 0)%nat.
  - destruct k as [|n].
    + cbn [Re.findall_loop Nat.eqb andb].
      unfold copyright_m at 1.
      destruct (Re.at_bol prev).
      * rewrite copyright_lines_eq. unfold line_m, starts.
        destruct (chop "Copyright" (String c r)) as [t|] eqn:E.
        -- assert (Hc : is_nl c = false).
           { apply (starts_copyright_not_nl c r); unfold starts; now rewrite E. }
           assert (Hn : Re.consumed (String c r) (drop_line t)
                        = S (String.length (take_line r))).
           { unfold Re.consumed.
             rewrite <- (drop_line_append "Copyright" t eq_refl).
             rewrite <- (chop_sound _ _ _ E).
             rewrite (length_take_drop (String c r)) at 1.
             cbn [take_line drop_line]; rewrite Hc; cbn [String.length]; lia. }
           rewrite Hn. f_equal.
           ++ rewrite <- (substring_take_line (String c r)).
              simpl; rewrite Hc; reflexivity.
           ++ rewrite IH by lia. rewrite later_copyright_lines_cons, Hc.
              simpl. rewrite Hc. now rewrite andb_false_r.
        -- rewrite IH by lia. rewrite later_copyright_lines_cons. simpl.
           destruct (is_nl c); reflexivity.
      * rewrite IH by lia. rewrite later_copyright_lines_cons. simpl.
        destruct (is_nl c); reflexivity.
    + simpl in Hk. destruct (is_nl c) eqn:Hc; [simpl in Hk; lia|].
      simpl in Hk. cbn [Re.findall_loop Nat.eqb andb].
      rewrite IH by lia. rewrite later_copyright_lines_cons, Hc.
      simpl. rewrite Hc. now rewrite andb_false_r.
Qed.

Lemma findall_loop_ext (m1 m2 : Re.matcher) :
  (forall prev s, m1 prev s = m2 prev s) ->
  forall s k prev, Re.findall_loop m1 k prev s = Re.findall_loop m2 k prev s.
Proof.
  intros H; induction s as [|c r IH]; intros k prev; simpl; [now rewrite H|].
  destruct k; [|apply IH].
  rewrite H. destruct (m2 prev (String c r)); [|now rewrite IH].
  destruct (Re.consumed (String c r) s); now rewrite IH.
Qed.

(** [re.findall] with the copyright pattern returns the lines that begin
    with the word. *)
Lemma findall_copyright (s : string) :
  Re.findall copyright_pattern s = copyright_lines s.
Proof.
  unfold Re.findall.
  rewrite (findall_loop_ext _ copyright_m) by (intros; apply match_at_copyright).
  rewrite findall_loop_copyright by lia. reflexivity.
Qed.

Lemma strip_true (code : string) : strip code true = comment_passes code.
Proof. reflexivity. Qed.

Lemma strip_false (code : string) :
  strip code false =
  String.concat nl (copyright_lines (comment_passes code)) ++ nl ++ comment_passes code.
Proof. unfold strip; simpl. now rewrite findall_copyright. Qed.

(** * Occurrences in a concatenation *)

Lemma has_cons (p : string) (c : ascii) (s : string) :
  has p (String c s) = starts p (String c s) || has p s.
Proof. apply has_eq. Qed.

Lemma starts_append_false (p u v : string) :
  tail_starts p v = false -> starts p u = false -> starts p (u ++ v) = false.
Proof.
  revert u; induction p as [|x p IH]; intros u Hv Hu; [discriminate|].
  simpl in Hv; apply orb_false_elim in Hv as [Hv1 Hv2].
  destruct u as [|c u]; [exact Hv1|]. simpl.
  rewrite starts_cons in Hu |- *.
  destruct (x =? c)%char; [simpl in *|reflexivity].
  apply IH; auto.
Qed.

Lemma has_append_false (p u v : string) :
  tail_starts p v = false -> has p u = false -> has p v = false ->
  has p (u ++ v) = false.
Proof.
  intros Ht Hu Hv; induction u as [|c u IH]; [exact Hv|].
  simpl. rewrite has_cons in Hu |- *. apply orb_false_elim in Hu as [Hu1 Hu2].
  rewrite IH by exact Hu2. rewrite orb_false_r.
  exact (starts_append_false p (String c u) v Ht Hu1).
Qed.

Lemma tail_starts_line_end (p v : string) :
  one_line p = true -> at_line_end v = true -> tail_starts p v = false.
Proof.
  intros Hp Hv; induction p as [|x p IH]; [reflexivity|]. simpl.
  unfold starts at 1. rewrite (chop_at_line_end x p v Hp Hv).
  simpl in Hp; apply andb_prop in Hp as [_ Hp]. auto.
Qed.

Lemma has_append_line_end (p u v : string) :
  one_line p = true -> at_line_end v = true ->
  has p u = false -> has p v = false -> has p (u ++ v) = false.
Proof. intros; apply has_append_false; auto using tail_starts_line_end. Qed.

(** * Passing over marker-free text *)

Lemma starts_false_chop (p s : string) : starts p s = false -> chop p s = None.
Proof. unfold starts; destruct (chop p s); [discriminate | reflexivity]. Qed.

Lemma joint_free_char (x : ascii) (a t : string) :
  has (String x "") a = false -> joint_free (String x "") a t = true.
Proof.
  induction a as [|c a IH]; [reflexivity|].
  rewrite has_cons; intros H; apply orb_false_elim in H as [Hs Hh].
  cbn [joint_free]. rewrite (IH Hh), andb_true_r.
  change (String c a ++ t) with (String c (a ++ t)).
  rewrite starts_cons, starts_nil in Hs |- *. now rewrite Hs.
Qed.

Lemma joint_free_pair (x y : ascii) (a t : string) :
  has (String x (String y "")) a = false -> last_is x a = false ->
  joint_free (String x (String y "")) a t = true.
Proof.
  induction a as [|c a IH]; [reflexivity|].
  rewrite has_cons; intros H Hl; apply orb_false_elim in H as [Hs Hh].
  cbn [joint_free].
  change (String c a ++ t) with (String c (a ++ t)).
  rewrite starts_cons in Hs |- *.
  destruct a as [|d a].
  - simpl in Hl. rewrite Hl. reflexivity.
  - rewrite (IH Hh Hl), andb_true_r.
    change (String d a ++ t) with (String d (a ++ t)).
    rewrite starts_cons in Hs |- *. rewrite !starts_nil in *. now rewrite Hs.
Qed.

Lemma has_joint (p a t : string) :
  joint_free p a t = true -> has p t = false -> has p (a ++ t) = false.
Proof.
  intros Hj Ht; induction a as [|c a IH]; [exact Ht|].
  cbn [joint_free] in Hj. apply andb_prop in Hj as [Hs Hj].
  change (String c a ++ t) with (String c (a ++ t)) in *.
  rewrite has_cons, (IH Hj), orb_false_r. now apply negb_true_iff in Hs.
Qed.

Section Through.

Variable f : string -> option string.
Variable p : string.
Hypothesis f_progress : progress f.
Hypothesis f_guard : forall s, chop p s = None -> f s = None.

(** A pass whose pattern begins with the literal [p] leaves text in which
    that literal does not start alone and goes on behind it. *)
Lemma through (a t : string) :
  joint_free p a t = true -> subf f (a ++ t) = a ++ subf f t.
Proof.
  induction a as [|c a IH]; intros Hj; [reflexivity|].
  cbn [joint_free] in Hj. apply andb_prop in Hj as [Hs Hj].
  change (String c a ++ t) with (String c (a ++ t)) in *.
  rewrite (subf_eq f f_progress), f_guard.
  - simpl; f_equal. now apply IH.
  - apply starts_false_chop. now apply negb_true_iff in Hs.
Qed.

End Through.

Lemma line_m_guard (mk s : string) : chop mk s = None -> line_m mk s = None.
Proof. unfold line_m; now intros ->. Qed.

Lemma block_m_guard (s : string) : chop "/*" s = None -> block_m s = None.
Proof. unfold block_m; now intros ->. Qed.

(** A line comment in front of a line end goes away whole. *)
Lemma line_comment_removed (x : ascii) (p body below : string) :
  one_line (String x p) = true -> one_line body = true ->
  at_line_end below = true -> has (String x p) below = false ->
  subf (line_m (String x p)) (String x p ++ body ++ below) = below.
Proof.
  intros Hp Hb Hl Hh.
  change (String x p ++ body ++ below) with (String x (p ++ body ++ below)).
  rewrite (subf_eq _ (line_m_progress x p)).
  change (String x (p ++ body ++ below)) with (String x p ++ body ++ below).
  unfold line_m at 1. rewrite chop_append, drop_line_append, drop_line_fixed by auto.
  now apply line_pass_id.
Qed.

Lemma after_first_close (body r : string) :
  has "*/" body = false -> after_first "*/" (body ++ "*/" ++ r) = Some r.
Proof.
  induction body as [|c b IH]; intros H; [reflexivity|].
  rewrite has_cons in H; apply orb_false_elim in H as [Hs Hh].
  change (String c b ++ "*/" ++ r) with (String c (b ++ "*/" ++ r)).
  rewrite after_first_eq, starts_false_chop; [auto|].
  rewrite starts_cons in Hs |- *.
  destruct ("*" =? c)%char; [|reflexivity].
  rewrite andb_true_l in Hs |- *.
  destruct b as [|d b]; [reflexivity|].
  change (String d b ++ "*/" ++ r) with (String d (b ++ "*/" ++ r)).
  rewrite starts_cons in Hs |- *. exact Hs.
Qed.

(** A closed block comment in front of text without an opening marker goes
    away whole. *)
Lemma block_comment_removed (body below : string) :
  has "*/" body = false -> has "/*" below = false ->
  subf block_m ("/*" ++ body ++ "*/" ++ below) = below.
Proof.
  intros Hb Hl.
  change ("/*" ++ body ++ "*/" ++ below)
    with (String "/" (String "*" (body ++ "*/" ++ below))).
  rewrite (subf_eq _ block_m_progress), block_m_open, after_first_close by exact Hb.
  apply block_pass_id, no_open_no_fire, Hl.
Qed.

(** * An opening marker that is never closed *)

Lemma fires_false_at (f : string -> option string) (s t : string) :
  fires f s = false -> Suffix t s -> f t = None.
Proof.
  intros H HS. destruct (f t) as [r|] eqn:E; [|reflexivity].
  assert (Ht : fires f t = true) by (rewrite fires_eq, E; reflexivity).
  rewrite (fires_Suffix f _ _ HS Ht) in H; discriminate.
Qed.

Lemma open_block_no_fire (a b : string) :
  has "/*" a = false -> has "*/" b = false ->
  fires block_m (a ++ "/*" ++ b) = false.
Proof.
  intros Ha Hb; induction a as [|c a IH].
  - change ("" ++ "/*" ++ b) with (String "/" (String "*" b)).
    rewrite fires_eq, block_m_open.
    pose proof Hb as Hb'; unfold has in Hb'.
    destruct (after_first "*/" b); [discriminate|].
    rewrite fires_eq. change (block_m (String "*" b)) with (@None string).
    now apply no_close_no_fire.
  - rewrite has_cons in Ha; apply orb_false_elim in Ha as [Hs Ha].
    change (String c a ++ "/*" ++ b) with (String c (a ++ "/*" ++ b)).
    rewrite fires_eq, block_m_guard; [auto|].
    apply starts_false_chop.
    rewrite starts_cons in Hs |- *.
    destruct ("/" =? c)%char; [|reflexivity].
    rewrite andb_true_l in Hs |- *.
    destruct a as [|d a]; [reflexivity|].
    change (String d a ++ "/*" ++ b) with (String d (a ++ "/*" ++ b)).
    rewrite starts_cons in Hs |- *. exact Hs.
Qed.

(** * A comment in a text without other markers *)

Lemma has_skip (p : string) (c : ascii) (s : string) :
  starts p (String c s) = false -> has p (String c s) = has p s.
Proof. intros H; now rewrite has_cons, H. Qed.

Lemma starts_line_end (x : ascii) (p s : string) :
  one_line (String x p) = true -> at_line_end s = true -> starts (String x p) s = false.
Proof. intros Hp Hs; unfold starts; now rewrite chop_at_line_end. Qed.

Lemma comment_passes_comment (st : style) (above notice below : string) :
  has_marker above = false -> last_is (marker_head st) above = false ->
  has_marker notice = false -> st = Block \/ one_line notice = true ->
  has_marker below = false -> at_line_end below = true ->
  comment_passes (above ++ comment st notice ++ below) = above ++ below.
Proof.
  intros Ha Hj Hn Hl Hb He.
  apply has_marker_false in Ha as (A1 & A2 & A3 & A4 & A5).
  apply has_marker_false in Hn as (N1 & N2 & N3 & N4 & N5).
  apply has_marker_false in Hb as (B1 & B2 & B3 & B4 & B5).
  assert (P2 : subf block_m (above ++ below) = above ++ below).
  { apply block_pass_id, no_open_no_fire. now apply has_append_line_end. }
  assert (P3 : subf (line_m "#") (above ++ below) = above ++ below).
  { apply (line_pass_id "#" ""). now apply has_append_line_end. }
  assert (P4 : subf (line_m "--") (above ++ below) = above ++ below).
  { apply (line_pass_id "-" "-"). now apply has_append_line_end. }
  rewrite comment_passes_eq.
  destruct st; try (destruct Hl as [Hl|Hl]; [discriminate|]); cbn [marker_head] in Hj.
  - (* // *)
    change (comment SlashSlash notice ++ below) with ("//" ++ notice ++ below).
    rewrite (through _ "//" (line_m_progress _ _) (line_m_guard _))
      by (apply joint_free_pair; auto).
    rewrite (line_comment_removed "/" "/") by auto.
    now rewrite P2, P3, P4.
  - (* block *)
    change (comment Block notice ++ below) with ("/*" ++ (notice ++ "*/") ++ below).
    rewrite (append_assoc notice).
    rewrite (line_pass_id "/" "/").
    + rewrite (through _ "/*" block_m_progress block_m_guard)
        by (apply joint_free_pair; auto).
      rewrite block_comment_removed by auto.
      now rewrite P3, P4.
    + apply has_joint; [apply joint_free_pair; auto|].
      change ("/*" ++ notice ++ "*/" ++ below)
        with (String "/" (String "*" (notice ++ "*/" ++ below))).
      rewrite !has_skip by reflexivity.
      apply has_append_false; [reflexivity | exact N1 |].
      change ("*/" ++ below) with (String "*" (String "/" below)).
      rewrite has_skip by reflexivity. rewrite has_skip; [exact B1|].
      rewrite starts_cons. rewrite (starts_line_end "/" "" below) by auto.
      apply andb_false_r.
  - (* # *)
    change (comment Hash notice ++ below) with (String "#" (notice ++ below)).
    assert (H1 : has "//" (above ++ String "#" (notice ++ below)) = false).
    { apply has_append_false; [reflexivity | exact A1 |].
      rewrite has_skip by reflexivity. now apply has_append_line_end. }
    assert (H2 : has "/*" (above ++ String "#" (notice ++ below)) = false).
    { apply has_append_false; [reflexivity | exact A2 |].
      rewrite has_skip by reflexivity. now apply has_append_line_end. }
    rewrite (line_pass_id "/" "/") by exact H1.
    rewrite block_pass_id by (apply no_open_no_fire, H2).
    change (String "#" (notice ++ below)) with ("#" ++ notice ++ below).
    rewrite (through _ "#" (line_m_progress _ _) (line_m_guard _))
      by (apply joint_free_char; auto).
    rewrite (line_comment_removed "#" "") by auto.
    exact P4.
  - (* -- *)
    change (comment DashDash notice ++ below)
      with (String "-" (String "-" (notice ++ below))).
    assert (H1 : has "//" (above ++ String "-" (String "-" (notice ++ below))) = false).
    { apply has_append_false; [reflexivity | exact A1 |].
      rewrite !has_skip by reflexivity. now apply has_append_line_end. }
    assert (H2 : has "/*" (above ++ String "-" (String "-" (notice ++ below))) = false).
    { apply has_append_false; [reflexivity | exact A2 |].
      rewrite !has_skip by reflexivity. now apply has_append_line_end. }
    assert (H3 : has "#" (above ++ String "-" (String "-" (notice ++ below))) = false).
    { apply has_append_false; [reflexivity | exact A4 |].
      rewrite !has_skip by reflexivity. now apply has_append_line_end. }
    rewrite (line_pass_id "/" "/") by exact H1.
    rewrite block_pass_id by (apply no_open_no_fire, H2).
    rewrite (line_pass_id "#" "") by exact H3.
    change (String "-" (String "-" (notice ++ below))) with ("--" ++ notice ++ below).
    rewrite (through _ "--" (line_m_progress _ _) (line_m_guard _))
      by (apply joint_free_pair; auto).
    now rewrite (line_comment_removed "-" "-") by auto.
Qed.

Lemma strip_false_marker_free (text : string) :
  has_marker text = false ->
  strip text false = String.concat nl (copyright_lines text) ++ nl ++ text.
Proof. intros H. now rewrite strip_false, (comment_passes_marker_free _ H). Qed.

(** * The properties of the specification *)

(** C1, as the code has it.  For a text without comment markers the four
    passes change nothing, so [strip text true] is the text; with
    [remove_all] false the output is the newline-joined lines of the text
    that begin with Copyright, then one newline, then the text.  The newline
    is there whether or not a line matched. *)
Theorem strip_marker_free (text : string) :
  has_marker text = false ->
  strip text true = text /\
  strip text false = String.concat nl (copyright_lines text) ++ nl ++ text.
Proof.
  intros H. split; [rewrite strip_true | rewrite strip_false_marker_free]; auto.
  now apply comment_passes_marker_free.
Qed.

Lemma strip_marker_free_witness :
  has_marker "int x;" = false /\
  strip "int x;" true = "int x;" /\
  strip "int x;" false = String.concat nl (copyright_lines "int x;") ++ nl ++ "int x;".
Proof. split; [vm_compute; reflexivity | apply strip_marker_free; vm_compute; reflexivity]. Defined.

(** C1 fails as stated: the text [int x;] has no comment marker and no line
    that begins with Copyright, yet [strip] with [remove_all] false returns
    it with a newline in front, which is neither the text nor what
    [remove_all] true returns. *)
Lemma strip_marker_free_counterexample :
  has_marker "int x;" = false /\
  copyright_lines "int x;" = [] /\
  strip "int x;" false = nl ++ "int x;" /\
  ~ (strip "int x;" false = strip "int x;" true /\ strip "int x;" true = "int x;").
Proof.
  vm_compute. repeat split. intros [H _]; discriminate H.
Qed.

(** C2.  Stripping with [remove_all] true is idempotent. *)
Theorem strip_all_idempotent (text : string) :
  strip (strip text true) true = strip text true.
Proof.
  rewrite !strip_true.
  destruct (comment_passes_clean text) as (H1 & H2 & H3 & H4).
  now apply comment_passes_id.
Qed.

(** C4.  With [remove_all] false, a text that is one line beginning with
    Copyright and free of comment markers comes out twice, once from the
    prepended block and once as the body: the output has two lines, both
    that line.  When the line carries its newline the output is the input
    twice. *)
Theorem strip_lone_copyright_line (line : string) :
  starts "Copyright" line = true -> one_line line = true ->
  has_marker line = false ->
  strip line false = line ++ nl ++ line /\
  lines (strip line false) = [line; line] /\
  strip (line ++ nl) false = (line ++ nl) ++ (line ++ nl).
Proof.
  intros Hc Hl Hm.
  assert (E : strip line false = line ++ nl ++ line).
  { rewrite (strip_false_marker_free line Hm).
    unfold copyright_lines. rewrite (lines_one_line _ Hl). simpl.
    unfold is_copyright_line. now rewrite Hc. }
  split; [exact E|]. split.
  - rewrite E, lines_append_nl, lines_one_line by exact Hl. reflexivity.
  - assert (Hm' : has_marker (line ++ nl) = false).
    { apply has_marker_false in Hm as (H1 & H2 & H3 & H4 & H5).
      unfold has_marker. now rewrite !has_append_line_end. }
    rewrite (strip_false_marker_free _ Hm').
    unfold copyright_lines.
    change (line ++ nl) with (line ++ nl ++ "") at 1.
    rewrite lines_append_nl by exact Hl. simpl.
    unfold is_copyright_line at 1. rewrite Hc. simpl.
    now rewrite append_assoc.
Qed.

Lemma strip_lone_copyright_line_witness :
  strip "Copyright 2024 Example" false
  = "Copyright 2024 Example" ++ nl ++ "Copyright 2024 Example".
Proof. apply strip_lone_copyright_line; vm_compute; reflexivity. Defined.

(** C6.  In a text whose only comment marker is an opening block marker
    with no closing marker behind it, the block pattern matches nowhere, the
    block pass returns the text as it is, and so does the whole of [strip]
    with [remove_all] true. *)
Theorem strip_unterminated_block (before after : string) :
  has "/*" before = false -> has "*/" after = false ->
  has "//" (before ++ "/*" ++ after) = false ->
  has "#" (before ++ "/*" ++ after) = false ->
  has "--" (before ++ "/*" ++ after) = false ->
  (forall prev t, Suffix t (before ++ "/*" ++ after) ->
                  Re.match_at block_pattern prev t = None) /\
  Re.sub block_pattern (before ++ "/*" ++ after) = before ++ "/*" ++ after /\
  strip (before ++ "/*" ++ after) true = before ++ "/*" ++ after.
Proof.
  intros Ha Hb H1 H3 H4.
  pose proof (open_block_no_fire _ _ Ha Hb) as Hf.
  repeat split.
  - intros prev t HS. rewrite match_at_block. eapply fires_false_at; eauto.
  - rewrite sub_block. now apply block_pass_id.
  - rewrite strip_true. now apply comment_passes_id.
Qed.

Lemma strip_unterminated_block_witness :
  Re.sub block_pattern ("int x; " ++ "/*" ++ " never closed" ++ nl ++ "int y;")
  = "int x; " ++ "/*" ++ " never closed" ++ nl ++ "int y;" /\
  strip ("int x; " ++ "/*" ++ " never closed" ++ nl ++ "int y;") true
  = "int x; " ++ "/*" ++ " never closed" ++ nl ++ "int y;".
Proof.
  apply (strip_unterminated_block "int x; " (" never closed" ++ nl ++ "int y;"));
    vm_compute; reflexivity.
Defined.

(** C7.  On the example text the first line of the output is the copyright
    line, and what follows it is what comment stripping leaves of the input,
    which begins with that line again. *)
Theorem strip_copyright_example :
  let text := "Copyright 2024 Example" ++ nl ++ "// comment" ++ nl ++ "code" in
  take_line (strip text false) = "Copyright 2024 Example" /\
  strip text false = "Copyright 2024 Example" ++ nl ++ strip text true /\
  strip text true = "Copyright 2024 Example" ++ nl ++ nl ++ "code".
Proof. vm_compute. repeat split. Qed.

(** C8.  A block comment that spans a line boundary is removed whole. *)
Theorem strip_block_example :
  strip ("/* block" ++ nl ++ "comment */" ++ nl ++ "keep") true = nl ++ "keep".
Proof. vm_compute. reflexivity. Qed.

(** The two other worked examples of the specification. *)
Example strip_slash_example :
  strip ("// hello" ++ nl ++ "code") true = nl ++ "code".
Proof. vm_compute. reflexivity. Qed.

Example strip_dash_example :
  strip ("-- sql comment" ++ nl ++ "SELECT 1") true = nl ++ "SELECT 1".
Proof. vm_compute. reflexivity. Qed.

(** C9.  With [remove_all] true the output is a subsequence of the input,
    and so never longer. *)
Theorem strip_all_subsequence (text : string) :
  Subseq (strip text true) text /\
  String.length (strip text true) <= String.length text.
Proof.
  rewrite strip_true. pose proof (comment_passes_Subseq text) as H.
  split; [exact H | now apply Subseq_length].
Qed.

(** C10.  With [remove_all] false the output is the extracted copyright
    lines joined by newlines, one newline, and the stripped text, where the
    stripped text is what the four substitutions make of the input and the
    extracted lines are what [re.findall] finds in it, namely its lines that
    begin with Copyright; when there are none the output is the stripped
    text with one newline in front. *)
Theorem strip_keep_layout (text : string) :
  let stripped :=
    Re.sub dash_pattern
      (Re.sub hash_pattern (Re.sub block_pattern (Re.sub slash_pattern text))) in
  let extracted := Re.findall copyright_pattern stripped in
  strip text false = String.concat nl extracted ++ nl ++ stripped /\
  extracted = copyright_lines stripped /\
  (copyright_lines stripped = [] -> strip text false = nl ++ stripped).
Proof.
  cbv zeta. fold (comment_passes text).
  rewrite strip_false, findall_copyright. repeat split.
  now intros ->.
Qed.

Lemma strip_keep_layout_witness :
  strip ("x = 1; // one" ++ nl ++ "y") false
  = nl ++ Re.sub dash_pattern
            (Re.sub hash_pattern
               (Re.sub block_pattern
                  (Re.sub slash_pattern ("x = 1; // one" ++ nl ++ "y")))).
Proof. apply strip_keep_layout; vm_compute; reflexivity. Defined.

(** * Further properties of the stripping core *)

Lemma chop_append_r (p a b r : string) :
  chop p a = Some r -> chop p (a ++ b) = Some (r ++ b).
Proof.
  revert a; induction p as [|x p IH]; intros a; simpl.
  - now intros [= ->].
  - destruct a as [|c a]; [discriminate|]. simpl.
    destruct (x =? c)%char; [apply IH | discriminate].
Qed.

Lemma has_append_l (p a b : string) : has p a = true -> has p (a ++ b) = true.
Proof.
  induction a as [|c a IH]; intros H.
  - rewrite has_eq in H |- *. rewrite orb_false_r in H.
    unfold starts in *. destruct (chop p "") as [r|] eqn:E; [|discriminate].
    now rewrite (chop_append_r _ _ b _ E).
  - rewrite has_cons in H. change (String c a ++ b) with (String c (a ++ b)).
    rewrite has_cons. apply orb_true_iff in H as [H|H].
    + unfold starts in *. destruct (chop p (String c a)) as [r|] eqn:E; [|discriminate].
      change (String c (a ++ b)) with (String c a ++ b).
      now rewrite (chop_append_r _ _ b _ E).
    + rewrite (IH H). apply orb_true_r.
Qed.

Lemma take_drop_line (s : string) : take_line s ++ drop_line s = s.
Proof.
  induction s as [|c s IH]; simpl; [reflexivity|].
  destruct (is_nl c); simpl; [reflexivity | now rewrite IH].
Qed.

Lemma has_take_line (p s : string) : has p s = false -> has p (take_line s) = false.
Proof.
  intros H. destruct (has p (take_line s)) eqn:E; [|reflexivity].
  apply (has_append_l _ _ (drop_line s)) in E.
  rewrite take_drop_line in E. congruence.
Qed.

Lemma take_line_cons (c : ascii) (s : string) :
  is_nl c = false -> take_line (String c s) = String c (take_line s).
Proof. simpl; now intros ->. Qed.

Lemma lines_cons (c : ascii) (s : string) :
  is_nl c = false -> lines (String c s) = String c (take_line s) :: tl (lines s).
Proof. intros H; simpl; rewrite H. now rewrite lines_eq. Qed.

Lemma lines_nl (s : string) : lines (String NL s) = "" :: lines s.
Proof. reflexivity. Qed.

Lemma has_lines (a : ascii) (p s : string) :
  has (String a p) s = false ->
  Forall (fun l => has (String a p) l = false) (lines s).
Proof.
  induction s as [|c s IH]; intros H.
  - constructor; [reflexivity | constructor].
  - rewrite has_cons in H. apply orb_false_elim in H as [Hs Hh].
    specialize (IH Hh).
    destruct (is_nl c) eqn:Ec.
    + apply is_nl_true in Ec; subst c. rewrite lines_nl.
      constructor; [reflexivity | exact IH].
    + rewrite lines_cons by exact Ec. rewrite lines_eq in IH.
      inversion IH as [|? ? _ Ht]; subst. constructor; [|exact Ht].
      rewrite <- take_line_cons by exact Ec. apply has_take_line.
      now rewrite has_cons, Hs, Hh.
Qed.

Lemma lines_one_line_each (s : string) :
  Forall (fun l => one_line l = true) (lines s).
Proof.
  induction s as [|c s IH]; [repeat constructor|].
  destruct (is_nl c) eqn:Ec.
  - apply is_nl_true in Ec; subst c. rewrite lines_nl. constructor; [reflexivity | exact IH].
  - rewrite lines_cons by exact Ec. rewrite lines_eq in IH.
    inversion IH as [|? ? Hh Ht]; subst. constructor; [|exact Ht].
    simpl. now rewrite Ec, Hh.
Qed.

Lemma Forall_filter_keep {A : Type} (P : A -> Prop) (f : A -> bool) (l : list A) :
  Forall P l -> Forall P (filter f l).
Proof.
  induction 1 as [|x l Hx Hl IH]; simpl; [constructor|].
  destruct (f x); auto.
Qed.

(** A pattern without a newline occurs in a joined block in front of a text
    only if it occurs in a line of the block or in the text. *)
Lemma has_block_in_front (a : ascii) (p : string) (block : list string) (body : string) :
  one_line (String a p) = true ->
  Forall (fun l => has (String a p) l = false) block ->
  has (String a p) body = false ->
  has (String a p) (String.concat nl block ++ nl ++ body) = false.
Proof.
  intros Hp Hb Hbody.
  assert (Hnl : forall t, has (String a p) t = false -> has (String a p) (nl ++ t) = false).
  { intros t Ht. change (nl ++ t) with (String NL t).
    rewrite has_skip; [exact Ht|]. now apply starts_line_end. }
  induction Hb as [|x block Hx Hb IH]; [now apply Hnl|].
  destruct block as [|y block].
  - simpl. apply has_append_line_end; auto.
  - change (String.concat nl (x :: y :: block))
      with (x ++ nl ++ String.concat nl (y :: block)).
    rewrite !append_assoc. apply has_append_line_end; auto.
Qed.

Lemma comment_passes_no_closed_block (text a b : string) :
  comment_passes text = a ++ "/*" ++ b -> has "*/" b = false.
Proof.
  intros E. destruct (comment_passes_clean text) as (_ & H & _ & _).
  rewrite E in H.
  assert (HS : Suffix ("/*" ++ b) (a ++ "/*" ++ b)).
  { clear. induction a as [|c a IH]; simpl; auto. }
  pose proof (fires_false_at _ _ _ H HS) as Hm.
  change ("/*" ++ b) with (String "/" (String "*" b)) in Hm.
  rewrite block_m_open in Hm. unfold has. now rewrite Hm.
Qed.

(** X1.  Whatever the input and the flag, the output holds no line-comment
    marker: no two slashes in a row, no hash sign, no two dashes in a row.
    With [remove_all] true no closed block comment is left either: behind
    an opening marker that survives there is no closing marker. *)
Theorem strip_output_clean (text : string) :
  (forall remove_all,
     has "//" (strip text remove_all) = false /\
     has "#" (strip text remove_all) = false /\
     has "--" (strip text remove_all) = false) /\
  (forall a b, strip text true = a ++ "/*" ++ b -> has "*/" b = false).
Proof.
  destruct (comment_passes_clean text) as (H1 & _ & H3 & H4).
  split; [|intros a b; rewrite strip_true; apply comment_passes_no_closed_block].
  intros [|]; [rewrite strip_true; auto|].
  rewrite strip_false. unfold copyright_lines.
  repeat split; apply has_block_in_front; auto;
    apply Forall_filter_keep; now apply has_lines.
Qed.

Lemma lines_drop_line (s : string) : lines (drop_line s) = "" :: tl (lines s).
Proof.
  induction s as [|c s IH]; [reflexivity|].
  rewrite tl_lines_cons. simpl drop_line. destruct (is_nl c) eqn:Ec.
  - apply is_nl_true in Ec; subst c. apply lines_nl.
  - exact IH.
Qed.

Lemma starts_empty_r (o : string) : starts o "" = true -> o = "".
Proof. destruct o; [reflexivity | discriminate]. Qed.

Lemma starts_trans (a b c : string) :
  starts a b = true -> starts b c = true -> starts a c = true.
Proof.
  rewrite !starts_iff. intros [r ->] [r' ->].
  exists (r ++ r'). apply append_assoc.
Qed.

Lemma Forall2_starts_trans (l1 l2 l3 : list string) :
  Forall2 (fun o l => starts o l = true) l1 l2 ->
  Forall2 (fun o l => starts o l = true) l2 l3 ->
  Forall2 (fun o l => starts o l = true) l1 l3.
Proof.
  intros H; revert l3; induction H as [|x y l1 l2 Hxy H IH]; intros l3 H3.
  - inversion H3; constructor.
  - inversion H3 as [|? z ? l3' Hyz H3']; subst. constructor; [|auto].
    eapply starts_trans; eauto.
Qed.

(** Deleting ends of lines keeps the lines apart: line by line, what is left
    is a beginning of what was there. *)
Lemma Trunc_lines (out s : string) :
  Trunc out s -> Forall2 (fun o l => starts o l = true) (lines out) (lines s).
Proof.
  induction 1 as [|c out s H IH|out s H IH].
  - repeat constructor.
  - destruct (is_nl c) eqn:Ec.
    + apply is_nl_true in Ec; subst c. rewrite !lines_nl. constructor; auto.
    + rewrite !lines_cons by exact Ec.
      rewrite (lines_eq out), (lines_eq s) in IH.
      inversion IH as [|? ? ? ? Hh Ht]; subst. constructor; [|exact Ht].
      now rewrite starts_cons, Ascii.eqb_refl.
  - rewrite lines_drop_line, (lines_eq out) in IH.
    inversion IH as [|? ? ? ? Hh Ht]; subst.
    rewrite (lines_eq out), (lines_eq s). constructor; [|exact Ht].
    apply starts_empty_r in Hh. now rewrite Hh.
Qed.

(** X2.  In a text without an opening block marker the passes keep every
    line in its place: the output has as many lines as the input, and each
    output line is a beginning of the input line at the same position. *)
Theorem strip_keeps_lines (text : string) :
  has "/*" text = false ->
  Forall2 (fun o l => starts o l = true) (lines (strip text true)) (lines text) /\
  List.length (lines (strip text true)) = List.length (lines text).
Proof.
  intros H.
  assert (F : Forall2 (fun o l => starts o l = true)
                (lines (strip text true)) (lines text)).
  { rewrite strip_true, comment_passes_eq.
    destruct (line_pass_spec "/" "/" eq_refl text) as [T1 _].
    pose proof (Trunc_has _ _ "/"%char "*" T1 eq_refl H) as H1.
    rewrite (block_pass_id (subf (line_m "//") text)) by now apply no_open_no_fire.
    set (s1 := subf (line_m "//") text) in *.
    destruct (line_pass_spec "#" "" eq_refl s1) as [T3 _].
    set (s3 := subf (line_m "#") s1) in *.
    destruct (line_pass_spec "-" "-" eq_refl s3) as [T4 _].
    eapply Forall2_starts_trans; [apply Trunc_lines, T4|].
    eapply Forall2_starts_trans; [apply Trunc_lines, T3|].
    apply Trunc_lines, T1. }
  split; [exact F | eapply Forall2_length; exact F].
Qed.

Lemma strip_keeps_lines_witness :
  List.length (lines (strip ("a = 1 # one" ++ nl ++ "b -- two" ++ nl ++ "c // three") true))
  = List.length (lines ("a = 1 # one" ++ nl ++ "b -- two" ++ nl ++ "c // three")).
Proof. apply strip_keeps_lines; vm_compute; reflexivity. Defined.

Lemma chop_append_nl (p a b : string) :
  one_line p = true -> chop p a = None -> chop p (a ++ nl ++ b) = None.
Proof.
  revert a; induction p as [|x p IH]; intros a Hp Ha; [discriminate|].
  simpl in Hp; apply andb_prop in Hp as [Hx Hp].
  destruct a as [|c a].
  - change ("" ++ nl ++ b) with (String NL b). simpl.
    destruct (Ascii.eqb_spec x NL) as [->|]; [discriminate | reflexivity].
  - simpl in Ha |- *. destruct (x =? c)%char; [auto | reflexivity].
Qed.

Lemma drop_line_append_nl (t b : string) :
  drop_line (t ++ nl ++ b) = drop_line t ++ nl ++ b.
Proof.
  induction t as [|c t IH]; [reflexivity|].
  simpl. destruct (is_nl c); [reflexivity | exact IH].
Qed.

(** A line-comment pass works on each side of a newline by itself. *)
Lemma line_pass_split (x : ascii) (p a b : string) :
  one_line (String x p) = true ->
  subf (line_m (String x p)) (a ++ nl ++ b)
  = subf (line_m (String x p)) a ++ nl ++ subf (line_m (String x p)) b.
Proof.
  intros Hp.
  apply (subf_ind _ (line_m_progress x p)
           (fun a out => subf (line_m (String x p)) (a ++ nl ++ b)
                         = out ++ nl ++ subf (line_m (String x p)) b)).
  - change ("" ++ nl ++ b) with (String NL b).
    rewrite (subf_eq _ (line_m_progress x p)).
    unfold line_m at 1. now rewrite (chop_at_line_end x p (String NL b) Hp eq_refl).
  - intros c r Hf IH.
    change (String c r ++ nl ++ b) with (String c (r ++ nl ++ b)).
    rewrite (subf_eq _ (line_m_progress x p)).
    change (String c (r ++ nl ++ b)) with (String c r ++ nl ++ b).
    unfold line_m at 1. unfold line_m in Hf.
    destruct (chop (String x p) (String c r)) eqn:E; [discriminate|].
    rewrite (chop_append_nl _ _ b Hp E), IH. reflexivity.
  - intros c r rest Hf _ IH.
    change (String c r ++ nl ++ b) with (String c (r ++ nl ++ b)).
    rewrite (subf_eq _ (line_m_progress x p)).
    change (String c (r ++ nl ++ b)) with (String c r ++ nl ++ b).
    unfold line_m at 1. unfold line_m in Hf.
    destruct (chop (String x p) (String c r)) as [t|] eqn:E; [|discriminate].
    injection Hf as <-.
    rewrite (chop_append_r _ _ (nl ++ b) _ E), drop_line_append_nl. exact IH.
Qed.

Lemma last_is_append_char (x d : ascii) (a : string) :
  last_is x (a ++ String d "") = (x =? d)%char.
Proof.
  induction a as [|c a IH]; [reflexivity|].
  change (String c a ++ String d "") with (String c (a ++ String d "")).
  cbn [last_is]. destruct (a ++ String d "") eqn:E; [|exact IH].
  destruct a; discriminate.
Qed.

(** The block pass goes over leading lines without an opening marker. *)
Lemma block_pass_split (a b : string) :
  has "/*" a = false ->
  subf block_m (a ++ nl ++ b) = a ++ nl ++ subf block_m b.
Proof.
  intros H. rewrite <- !append_assoc.
  apply (through _ "/*" block_m_progress block_m_guard).
  apply joint_free_pair; [|apply last_is_append_char].
  now apply has_append_line_end.
Qed.

Lemma take_line_append_nl (x y : string) : take_line (x ++ nl ++ y) = take_line x.
Proof.
  change (nl ++ y) with (String NL y).
  induction x as [|c x IH]; [reflexivity|].
  simpl. destruct (is_nl c); [reflexivity | now rewrite IH].
Qed.

Lemma lines_append (x y : string) :
  lines (x ++ nl ++ y) = (lines x ++ lines y)%list.
Proof.
  induction x as [|c x IH]; [reflexivity|].
  change (String c x ++ nl ++ y) with (String c (x ++ nl ++ y)).
  destruct (is_nl c) eqn:Ec.
  - apply is_nl_true in Ec; subst c. rewrite !lines_nl, IH. reflexivity.
  - rewrite !lines_cons by exact Ec.
    rewrite take_line_append_nl, IH, (lines_eq x). reflexivity.
Qed.

Lemma comment_passes_split (a b : string) :
  has "/*" a = false ->
  comment_passes (a ++ nl ++ b) = comment_passes a ++ nl ++ comment_passes b.
Proof.
  intros H. rewrite !comment_passes_eq.
  rewrite (line_pass_split "/" "/") by reflexivity.
  destruct (line_pass_spec "/" "/" eq_refl a) as [T1 _].
  pose proof (Trunc_has _ _ "/"%char "*" T1 eq_refl H) as H1.
  rewrite block_pass_split by exact H1.
  rewrite (block_pass_id (subf (line_m "//") a)) by now apply no_open_no_fire.
  rewrite (line_pass_split "#" "") by reflexivity.
  now rewrite (line_pass_split "-" "-") by reflexivity.
Qed.

(** X3.  Lines in front of the first opening block marker are processed on
    their own: when [a] has no opening block marker, stripping [a], a
    newline and [b] gives the stripped [a], a newline and the stripped [b],
    and the copyright lines found are those of [a] followed by those of
    [b]. *)
Theorem strip_splits_at_newline (a b : string) :
  has "/*" a = false ->
  strip (a ++ nl ++ b) true = strip a true ++ nl ++ strip b true /\
  Re.findall copyright_pattern (strip (a ++ nl ++ b) true)
  = (Re.findall copyright_pattern (strip a true)
     ++ Re.findall copyright_pattern (strip b true))%list.
Proof.
  intros H. rewrite !strip_true, !findall_copyright.
  rewrite (comment_passes_split a b H). split; [reflexivity|].
  unfold copyright_lines. now rewrite lines_append, filter_app.
Qed.

Lemma strip_splits_at_newline_witness :
  strip ("x = 1 # one" ++ nl ++ "/* two" ++ nl ++ "three */ y") true
  = strip "x = 1 # one" true ++ nl ++ strip ("/* two" ++ nl ++ "three */ y") true.
Proof. apply strip_splits_at_newline; vm_compute; reflexivity. Defined.

Lemma slash_pass_comment (above rest below : string) :
  has "//" above = false -> last_is "/" above = false ->
  one_line rest = true -> at_line_end below = true ->
  subf (line_m "//") (above ++ "//" ++ rest ++ below)
  = subf (line_m "//") (above ++ below).
Proof.
  intros Ha Hl Hr Hb.
  rewrite (through _ "//" (line_m_progress _ _) (line_m_guard _) above
             ("//" ++ rest ++ below)) by (apply joint_free_pair; auto).
  rewrite (through _ "//" (line_m_progress _ _) (line_m_guard _) above below)
    by (apply joint_free_pair; auto).
  f_equal.
  change ("//" ++ rest ++ below) with (String "/" (String "/" (rest ++ below))).
  rewrite (subf_eq _ (line_m_progress "/" "/")).
  change (String "/" (String "/" (rest ++ below))) with ("//" ++ rest ++ below).
  unfold line_m at 1. now rewrite chop_append, drop_line_append, drop_line_fixed.
Qed.

(** X4.  From two slashes to the end of the line everything goes, whatever
    it is and wherever the slashes stand, a string literal included: if the
    text in front has no two slashes in a row and does not end with a slash,
    the output is the one for the text with the slashes and the rest of
    their line taken out by hand, for both values of the flag. *)
Theorem strip_slash_to_line_end (above rest below : string) :
  has "//" above = false -> last_is "/" above = false ->
  one_line rest = true -> at_line_end below = true ->
  forall remove_all,
    strip (above ++ "//" ++ rest ++ below) remove_all
    = strip (above ++ below) remove_all.
Proof.
  intros Ha Hl Hr Hb remove_all.
  assert (E : comment_passes (above ++ "//" ++ rest ++ below)
              = comment_passes (above ++ below)).
  { rewrite !comment_passes_eq. now rewrite slash_pass_comment. }
  unfold strip. now rewrite E.
Qed.

Lemma strip_slash_to_line_end_witness :
  strip ("url = 'http:" ++ "//" ++ "example.com/a#b';" ++ nl ++ "next") true
  = strip ("url = 'http:" ++ nl ++ "next") true.
Proof. apply strip_slash_to_line_end; vm_compute; reflexivity. Defined.

Lemma is_copyright_one_line (line : string) :
  starts "Copyright" line = true -> one_line line = true ->
  copyright_lines line = [line].
Proof.
  intros Hc Hl. unfold copyright_lines. rewrite (lines_one_line _ Hl). simpl.
  unfold is_copyright_line. now rewrite Hc.
Qed.

(** X5.  A copyright line that carries a comment behind its text is kept
    without the comment.  The notice is one line that begins with Copyright,
    holds no comment marker and does not end with the character the
    marker of the comment begins with; the comment, in any of the four
    styles, has a body without comment markers, on one line unless it is a
    block comment, and runs to the end of the text.  Then the output with
    [remove_all] false is the notice twice, the comment gone from both. *)
Theorem strip_notice_with_trailing_comment (st : style) (notice body : string) :
  starts "Copyright" notice = true -> one_line notice = true ->
  has_marker notice = false -> last_is (marker_head st) notice = false ->
  has_marker body = false -> st = Block \/ one_line body = true ->
  strip (notice ++ comment st body) false = notice ++ nl ++ notice.
Proof.
  intros Hc Hl Hm Hj Hb Hs.
  assert (E : comment_passes (notice ++ comment st body) = notice).
  { rewrite <- (append_nil_r (comment st body)).
    rewrite (comment_passes_comment st notice body "") by auto.
    apply append_nil_r. }
  rewrite strip_false, E, (is_copyright_one_line _ Hc Hl). reflexivity.
Qed.

Lemma strip_notice_with_trailing_comment_witness :
  strip ("Copyright 2024 Example " ++ comment SlashSlash " all rights reserved") false
  = "Copyright 2024 Example " ++ nl ++ "Copyright 2024 Example ".
Proof.
  apply strip_notice_with_trailing_comment; try (vm_compute; reflexivity).
  right; vm_compute; reflexivity.
Defined.

Lemma concat_cons_char (c : ascii) (h : string) (t : list string) :
  String.concat nl (String c h :: t) = String c (String.concat nl (h :: t)).
Proof. destruct t; reflexivity. Qed.

(** Joining the lines of a text gives the text back. *)
Lemma concat_lines (s : string) : String.concat nl (lines s) = s.
Proof.
  induction s as [|c s IH]; [reflexivity|].
  destruct (is_nl c) eqn:Ec.
  - apply is_nl_true in Ec; subst c. rewrite lines_nl.
    rewrite (lines_eq s) in IH |- *.
    change (String.concat nl ("" :: take_line s :: tl (lines s)))
      with (nl ++ String.concat nl (take_line s :: tl (lines s))).
    now rewrite IH.
  - rewrite lines_cons by exact Ec. rewrite concat_cons_char.
    rewrite <- lines_eq. now rewrite IH.
Qed.

Lemma length_concat_cons (x : string) (l : list string) :
  String.length (String.concat nl (x :: l))
  = match l with
    | [] => String.length x
    | _ :: _ => String.length x + S (String.length (String.concat nl l))
    end.
Proof.
  destruct l as [|y l]; [reflexivity|].
  change (String.concat nl (x :: y :: l)) with (x ++ nl ++ String.concat nl (y :: l)).
  rewrite !length_append. reflexivity.
Qed.

Lemma length_concat_filter (f : string -> bool) (l : list string) :
  String.length (String.concat nl (filter f l)) <= String.length (String.concat nl l).
Proof.
  induction l as [|x l IH]; [auto|].
  rewrite length_concat_cons. simpl filter. destruct (f x).
  - rewrite length_concat_cons. destruct l as [|y l]; [simpl; lia|].
    destruct (filter f (y :: l)); lia.
  - destruct l as [|y l]; [simpl; lia|]. lia.
Qed.

Lemma lines_concat_block (block : list string) (body : string) :
  block <> [] -> Forall (fun l => one_line l = true) block ->
  lines (String.concat nl block ++ nl ++ body) = (block ++ lines body)%list.
Proof.
  intros Hne H; induction H as [|x block Hx H IH]; [congruence|].
  destruct block as [|y block].
  - simpl String.concat. now rewrite lines_append_nl.
  - change (String.concat nl (x :: y :: block))
      with (x ++ nl ++ String.concat nl (y :: block)).
    rewrite !append_assoc, lines_append_nl by exact Hx.
    rewrite IH by discriminate. reflexivity.
Qed.

Lemma filter_idem {A : Type} (f : A -> bool) (l : list A) :
  filter f (filter f l) = filter f l.
Proof.
  induction l as [|x l IH]; [reflexivity|]. simpl.
  destruct (f x) eqn:E; [|exact IH]. simpl. now rewrite E, IH.
Qed.

(** X6.  With [remove_all] false every copyright line that survives the
    passes stands in the output twice: the lines of the output that begin
    with Copyright are those of the stripped text, followed by the same
    lines again. *)
Theorem strip_keep_doubles_notices (text : string) :
  copyright_lines (strip text false)
  = (copyright_lines (strip text true) ++ copyright_lines (strip text true))%list.
Proof.
  rewrite strip_false, strip_true.
  set (body := comment_passes text).
  destruct (copyright_lines body) as [|x block] eqn:E.
  - change (String.concat nl [] ++ nl ++ body) with (String NL body).
    unfold copyright_lines in *. rewrite lines_nl. simpl. exact E.
  - unfold copyright_lines at 1.
    rewrite lines_concat_block.
    + rewrite filter_app. fold (copyright_lines body). rewrite E.
      rewrite <- E. unfold copyright_lines. now rewrite filter_idem.
    + discriminate.
    + rewrite <- E. apply Forall_filter_keep, lines_one_line_each.
Qed.

(** X7.  With [remove_all] false the output is the stripped text plus at
    least the one newline, and never longer than twice the input plus
    one. *)
Theorem strip_keep_length (text : string) :
  String.length (strip text true) + 1 <= String.length (strip text false) /\
  String.length (strip text false) <= 2 * String.length text + 1.
Proof.
  rewrite strip_false, strip_true, !length_append.
  pose proof (length_concat_filter is_copyright_line (lines (comment_passes text))) as H.
  rewrite concat_lines in H. fold (copyright_lines (comment_passes text)) in H.
  pose proof (Subseq_length _ _ (comment_passes_Subseq text)).
  change (String.length nl) with 1. lia.
Qed.

(** * A comment among other comments *)

Lemma Suffix_tail (c : ascii) (t s : string) : Suffix (String c t) s -> Suffix t s.
Proof. intros H. eapply Suffix_trans; [|exact H]. auto. Qed.

Lemma Suffix_append (t s w : string) : Suffix t s -> Suffix (t ++ w) (s ++ w).
Proof. induction 1 as [|c t s H IH]; [auto|]. simpl. auto. Qed.

Lemma one_line_Suffix (t s : string) : Suffix t s -> one_line s = true -> one_line t = true.
Proof.
  induction 1 as [|c t s H IH]; [auto|]. simpl.
  intros Hs; apply andb_prop in Hs as [_ Hs]; auto.
Qed.

Lemma one_line_append (a b : string) : one_line (a ++ b) = one_line a && one_line b.
Proof. induction a as [|c a IH]; simpl; [reflexivity|]. now rewrite IH, andb_assoc. Qed.

Lemma last_line_one_line (s : string) : one_line s = true -> last_line s = s.
Proof. destruct s as [|c s]; [reflexivity|]. simpl. now intros ->. Qed.

(** A one-line end of a text is an end of its last line. *)
Lemma last_line_Suffix (t s : string) :
  Suffix t s -> one_line t = true -> Suffix t (last_line s).
Proof.
  induction 1 as [t|c t s H IH]; intros Ht.
  - rewrite last_line_one_line by exact Ht. auto.
  - cbn [last_line]. destruct (negb (is_nl c) && one_line s); auto.
Qed.

Lemma drop_line_append_multi (r t : string) :
  one_line r = false -> drop_line (r ++ t) = drop_line r ++ t.
Proof.
  induction r as [|c r IH]; simpl; [discriminate|].
  destruct (is_nl c); simpl; [now intros _ | exact IH].
Qed.

Lemma drop_line_one_line (r Z : string) :
  one_line r = true -> at_line_end Z = true -> drop_line (r ++ Z) = Z.
Proof. intros Hr HZ. rewrite drop_line_append by exact Hr. now apply drop_line_fixed. Qed.

Lemma chop_cons (a : ascii) (p : string) (c : ascii) (s : string) :
  chop (String a p) (String c s) = if (a =? c)%char then chop p s else None.
Proof. reflexivity. Qed.

Lemma chop_append_None (p a b : string) :
  chop p a = None -> String.length p <= String.length a -> chop p (a ++ b) = None.
Proof.
  revert a; induction p as [|x p IH]; intros a; [discriminate|].
  destruct a as [|c a]; [cbn [String.length]; lia|].
  change (String c a ++ b) with (String c (a ++ b)). rewrite !chop_cons.
  destruct (x =? c)%char; [|reflexivity].
  intros H Hl. apply IH; [exact H|]. cbn [String.length] in Hl; lia.
Qed.

(** A literal that starts in [a] and ends in [m] leaves an end of [m]. *)
Lemma chop_straddle (p a m r : string) :
  chop p a = None -> chop p (a ++ m) = Some r -> Suffix r m.
Proof.
  revert a; induction p as [|x p IH]; intros a; [discriminate|].
  destruct a as [|c a].
  - intros _ H. change ("" ++ m) with m in H. eapply chop_Suffix; eauto.
  - change (String c a ++ m) with (String c (a ++ m)). rewrite !chop_cons.
    destruct (x =? c)%char; [apply IH|]. intros _ H; discriminate H.
Qed.

Lemma chop_before_line_end (p a Z r : string) :
  one_line p = true -> at_line_end Z = true -> chop p (a ++ Z) = Some r ->
  exists r0, chop p a = Some r0 /\ r = r0 ++ Z.
Proof.
  revert a; induction p as [|x p IH]; intros a Hp HZ.
  - simpl. intros [= <-]. now exists a.
  - destruct a as [|c a].
    + change ("" ++ Z) with Z. now rewrite (chop_at_line_end x p Z Hp HZ).
    + change (String c a ++ Z) with (String c (a ++ Z)). rewrite !chop_cons.
      destruct (x =? c)%char; [|discriminate].
      simpl in Hp. apply andb_prop in Hp as [_ Hp]. now apply IH.
Qed.

Lemma after_first_length (p a r : string) :
  after_first p a = Some r -> String.length p <= String.length a.
Proof.
  intros H. destruct (after_first_sound _ _ _ H) as [a0 ->].
  rewrite !length_append. lia.
Qed.

Lemma after_first_append_r (p a b r : string) :
  after_first p a = Some r -> after_first p (a ++ b) = Some (r ++ b).
Proof.
  induction a as [|c a IH].
  - rewrite after_first_eq. destruct (chop p "") as [r'|] eqn:E; [|discriminate].
    intros [= <-]. rewrite after_first_eq. now rewrite (chop_append_r _ _ b _ E).
  - rewrite after_first_eq. intros H.
    change (String c a ++ b) with (String c (a ++ b)). rewrite after_first_eq.
    change (String c (a ++ b)) with (String c a ++ b).
    destruct (chop p (String c a)) as [r'|] eqn:E.
    + injection H as <-. now rewrite (chop_append_r _ _ b _ E).
    + rewrite chop_append_None; [now apply IH | exact E |].
      apply after_first_length in H. cbn [String.length]. lia.
Qed.

Lemma joint_free_has (p a t : string) :
  has p a = false -> tail_starts p t = false -> joint_free p a t = true.
Proof.
  intros Ha Ht; induction a as [|c a IH]; [reflexivity|].
  rewrite has_cons in Ha; apply orb_false_elim in Ha as [Hs Ha].
  cbn [joint_free]. rewrite (IH Ha), andb_true_r.
  now rewrite (starts_append_false p (String c a) t Ht Hs).
Qed.

Lemma after_first_through (p a t : string) :
  joint_free p a t = true -> after_first p (a ++ t) = after_first p t.
Proof.
  induction a as [|c a IH]; intros Hj; [reflexivity|].
  cbn [joint_free] in Hj. apply andb_prop in Hj as [Hs Hj].
  apply negb_true_iff in Hs.
  change (String c a ++ t) with (String c (a ++ t)) in *.
  rewrite after_first_eq, (starts_false_chop _ _ Hs). now apply IH.
Qed.

Lemma has_prefix_false (p a b : string) : has p (a ++ b) = false -> has p a = false.
Proof.
  intros H. destruct (has p a) eqn:E; [|reflexivity].
  rewrite (has_append_l _ _ b E) in H; discriminate.
Qed.

(** ** One run of the loop over two texts that differ behind a prefix *)

Section Couple.

Variable f : string -> option string.
Hypothesis f_progress : progress f.
Variables S1 S2 : string.

(** At every place of the prefix the matcher does the same on both texts:
    it does not answer, or it answers within the prefix, or it answers
    behind the prefix at places from which the loop gives the same. *)
Hypothesis f_couple : forall c X,
  (f (String c X ++ S1) = None /\ f (String c X ++ S2) = None) \/
  (exists X', Suffix X' X /\
     f (String c X ++ S1) = Some (X' ++ S1) /\ f (String c X ++ S2) = Some (X' ++ S2)) \/
  (exists r1 r2,
     f (String c X ++ S1) = Some r1 /\ f (String c X ++ S2) = Some r2 /\
     subf f r1 = subf f r2).

Lemma scan_coupled (X : string) :
  subf f (X ++ S1) = subf f (X ++ S2) \/
  exists X0, subf f (X ++ S1) = X0 ++ subf f S1 /\ subf f (X ++ S2) = X0 ++ subf f S2.
Proof.
  remember (String.length X) as n eqn:Hn. revert X Hn.
  induction n as [n IH] using lt_wf_ind; intros X Hn.
  destruct X as [|c X].
  - right; exists ""; split; reflexivity.
  - change (String c X ++ S1) with (String c (X ++ S1)).
    change (String c X ++ S2) with (String c (X ++ S2)).
    rewrite !(subf_eq f f_progress).
    change (String c (X ++ S1)) with (String c X ++ S1).
    change (String c (X ++ S2)) with (String c X ++ S2).
    destruct (f_couple c X)
      as [[E1 E2] | [(X' & HS & E1 & E2) | (r1 & r2 & E1 & E2 & E)]];
      rewrite E1, E2.
    + destruct (IH (String.length X)) with (X := X) as [H | (X0 & H1 & H2)];
        [subst n; cbn [String.length]; lia | reflexivity | |].
      * left; now rewrite H.
      * right; exists (String c X0); rewrite H1, H2; split; reflexivity.
    + apply (IH (String.length X')); [|reflexivity].
      apply Suffix_length in HS. subst n; cbn [String.length]; lia.
    + left; exact E.
Qed.

End Couple.

(** ** One run of the loop over a text and what follows it *)

Section Cat.

Variable f : string -> option string.
Hypothesis f_progress : progress f.
Variable Q : string -> Prop.
Variable S : string.

(** At every place the loop comes to, the matcher answers as it does without
    the text that follows. *)
Hypothesis f_cat : forall c X, Q (String c X) ->
  match f (String c X) with
  | None => f (String c X ++ S) = None /\ Q X
  | Some r => f (String c X ++ S) = Some (r ++ S) /\ Q r
  end.

Lemma scan_cat (X : string) : Q X -> subf f (X ++ S) = subf f X ++ subf f S.
Proof.
  remember (String.length X) as n eqn:Hn. revert X Hn.
  induction n as [n IH] using lt_wf_ind; intros X Hn HQ.
  destruct X as [|c X]; [reflexivity|].
  change (String c X ++ S) with (String c (X ++ S)).
  rewrite !(subf_eq f f_progress).
  change (String c (X ++ S)) with (String c X ++ S).
  pose proof (f_cat c X HQ) as H.
  destruct (f (String c X)) as [r|] eqn:E; destruct H as [-> HQ'].
  - apply (IH (String.length r)); [|reflexivity | exact HQ'].
    apply f_progress, Suffix_length in E. subst n; cbn [String.length]; lia.
  - change (String c (subf f X) ++ subf f S) with (String c (subf f X ++ subf f S)).
    f_equal. apply (IH (String.length X)); [|reflexivity | exact HQ'].
    subst n; cbn [String.length]; lia.
Qed.

End Cat.

(** ** A line-comment pass over a line comment *)

(** What the pattern of a line comment answers in front of a line comment
    with the marker [m]: the body [y] of that comment counts only when the
    match ends on an earlier line. *)
Lemma line_m_in_front (x : ascii) (p m y Z : string) (c : ascii) (X : string) :
  one_line m = true -> String.length (String x p) <= S (String.length m) ->
  one_line y = true -> at_line_end Z = true ->
  line_m (String x p) (String c X ++ m ++ y ++ Z) =
  match chop (String x p) (String c X) with
  | Some r => if one_line r then Some Z else Some (drop_line r ++ m ++ y ++ Z)
  | None =>
      match chop (String x p) (String c X ++ m) with
      | Some _ => Some Z
      | None => None
      end
  end.
Proof.
  intros Hm Hl Hy HZ. unfold line_m.
  destruct (chop (String x p) (String c X)) as [r|] eqn:E.
  - rewrite (chop_append_r _ _ (m ++ y ++ Z) _ E).
    destruct (one_line r) eqn:Hr.
    + now rewrite !drop_line_append, drop_line_fixed by auto.
    + now rewrite drop_line_append_multi.
  - rewrite <- (append_assoc (String c X) m (y ++ Z)).
    destruct (chop (String x p) (String c X ++ m)) as [r|] eqn:E2.
    + rewrite (chop_append_r _ _ (y ++ Z) _ E2).
      pose proof (one_line_Suffix _ _ (chop_straddle _ _ _ _ E E2) Hm) as Hr.
      now rewrite !drop_line_append, drop_line_fixed by auto.
    + rewrite chop_append_None; [reflexivity | exact E2 |].
      rewrite length_append. cbn [String.length] in *. lia.
Qed.

Lemma line_m_coupled (x : ascii) (p m y1 y2 Z : string) (c : ascii) (X : string) :
  one_line m = true -> String.length (String x p) <= S (String.length m) ->
  one_line y1 = true -> one_line y2 = true -> at_line_end Z = true ->
  let f := line_m (String x p) in
  (f (String c X ++ m ++ y1 ++ Z) = None /\ f (String c X ++ m ++ y2 ++ Z) = None) \/
  (exists X', Suffix X' X /\
     f (String c X ++ m ++ y1 ++ Z) = Some (X' ++ m ++ y1 ++ Z) /\
     f (String c X ++ m ++ y2 ++ Z) = Some (X' ++ m ++ y2 ++ Z)) \/
  (exists r1 r2,
     f (String c X ++ m ++ y1 ++ Z) = Some r1 /\ f (String c X ++ m ++ y2 ++ Z) = Some r2 /\
     subf f r1 = subf f r2).
Proof.
  intros Hm Hl H1 H2 HZ f. unfold f.
  rewrite !line_m_in_front by auto.
  destruct (chop (String x p) (String c X)) as [r|] eqn:E.
  - destruct (one_line r).
    + right; right. now exists Z, Z.
    + right; left. exists (drop_line r). split; [|split; reflexivity].
      eapply Suffix_trans; [apply Suffix_drop_line|].
      eapply chop_progress; eauto.
  - destruct (chop (String x p) (String c X ++ m)).
    + right; right. now exists Z, Z.
    + left; split; reflexivity.
Qed.

(** The comment itself goes, whatever stands in it. *)
Lemma line_comment_gone (x : ascii) (p y Z : string) :
  one_line y = true -> at_line_end Z = true ->
  subf (line_m (String x p)) (String x p ++ y ++ Z) = subf (line_m (String x p)) Z.
Proof.
  intros Hy HZ.
  change (String x p ++ y ++ Z) with (String x (p ++ y ++ Z)).
  rewrite (subf_eq _ (line_m_progress x p)).
  change (String x (p ++ y ++ Z)) with (String x p ++ y ++ Z).
  unfold line_m at 1. now rewrite chop_append, drop_line_append, drop_line_fixed by auto.
Qed.

(** The pass of a marker gives the same whatever stands in a comment with
    that marker, wherever the comment is. *)
Lemma line_pass_equal (x : ascii) (p X y Z : string) :
  one_line (String x p) = true -> one_line y = true -> at_line_end Z = true ->
  subf (line_m (String x p)) (X ++ String x p ++ y ++ Z)
  = subf (line_m (String x p)) (X ++ String x p ++ Z).
Proof.
  intros Hm Hy HZ.
  change (X ++ String x p ++ Z) with (X ++ String x p ++ "" ++ Z).
  destruct (scan_coupled (line_m (String x p)) (line_m_progress x p)
              (String x p ++ y ++ Z) (String x p ++ "" ++ Z)) with (X := X)
    as [H | (X0 & H1 & H2)].
  - intros c X'. apply line_m_coupled; auto; cbn [String.length]; lia.
  - exact H.
  - rewrite H1, H2. now rewrite !line_comment_gone by auto.
Qed.

Lemma line_pass_body (x : ascii) (p y Z : string) :
  one_line (String x p) = true -> one_line y = true -> at_line_end Z = true ->
  exists y' rest,
    y = y' ++ rest /\
    subf (line_m (String x p)) (y ++ Z) = y' ++ subf (line_m (String x p)) Z.
Proof.
  intros Hk Hy HZ; induction y as [|c y IH].
  - exists "", "". split; reflexivity.
  - change (String c y ++ Z) with (String c (y ++ Z)).
    rewrite (subf_eq _ (line_m_progress x p)).
    change (String c (y ++ Z)) with (String c y ++ Z).
    unfold line_m at 1.
    destruct (chop (String x p) (String c y ++ Z)) as [r|] eqn:E.
    + exists "", (String c y). split; [reflexivity|].
      destruct (chop_before_line_end _ _ _ _ Hk HZ E) as (r0 & E0 & ->).
      rewrite drop_line_one_line; [reflexivity | | exact HZ].
      exact (one_line_Suffix _ _ (chop_Suffix _ _ _ E0) Hy).
    + simpl in Hy. apply andb_prop in Hy as [_ Hy].
      destruct (IH Hy) as (y' & rest & Ey & Es).
      exists (String c y'), rest. split; [simpl; now rewrite <- Ey|].
      now rewrite Es.
Qed.

Lemma line_pass_line_end (x : ascii) (p Z : string) :
  one_line (String x p) = true -> at_line_end Z = true ->
  at_line_end (subf (line_m (String x p)) Z) = true.
Proof.
  intros Hk HZ. destruct Z as [|c Z]; [reflexivity|].
  rewrite (subf_eq _ (line_m_progress x p)). unfold line_m at 1.
  rewrite (chop_at_line_end x p _ Hk HZ). exact HZ.
Qed.

(** A pass of another marker leaves the comment in place, with a body cut
    short at most, or takes it away with the end of its line. *)
Lemma line_pass_Hides (x : ascii) (p m t1 t2 : string) :
  one_line (String x p) = true -> one_line m = true ->
  String.length (String x p) <= S (String.length m) ->
  (forall W, subf (line_m (String x p)) (m ++ W) = m ++ subf (line_m (String x p)) W) ->
  Hides m t1 t2 ->
  Hides m (subf (line_m (String x p)) t1) (subf (line_m (String x p)) t2).
Proof.
  intros Hk Hm Hl Hkeep [->|(X & y & Z & -> & -> & Hy & Ho & Hc & HZ)]; [now left|].
  change (X ++ m ++ Z) with (X ++ m ++ "" ++ Z).
  destruct (scan_coupled (line_m (String x p)) (line_m_progress x p)
              (m ++ y ++ Z) (m ++ "" ++ Z)) with (X := X)
    as [H | (X0 & H1 & H2)].
  - intros c X'. now apply line_m_coupled.
  - now left.
  - right. rewrite H1, H2, !Hkeep.
    destruct (line_pass_body x p y Z Hk Hy HZ) as (y' & rest & Ey & ->).
    change ("" ++ Z) with Z.
    exists X0, y', (subf (line_m (String x p)) Z).
    subst y. rewrite one_line_append in Hy. apply andb_prop in Hy as [Hy _].
    repeat split; eauto using has_prefix_false, line_pass_line_end.
Qed.

Lemma line_pass_Hides_equal (x : ascii) (p t1 t2 : string) :
  one_line (String x p) = true -> Hides (String x p) t1 t2 ->
  subf (line_m (String x p)) t1 = subf (line_m (String x p)) t2.
Proof.
  intros Hk [->|(X & y & Z & -> & -> & Hy & _ & _ & HZ)]; [reflexivity|].
  now apply line_pass_equal.
Qed.

(** ** The block pass over a line comment *)

Lemma block_pass_line_end (Z : string) :
  at_line_end Z = true -> at_line_end (subf block_m Z) = true.
Proof.
  intros HZ. destruct Z as [|c Z]; [reflexivity|].
  rewrite (subf_eq _ block_m_progress).
  rewrite block_m_guard; [exact HZ|]. now apply (chop_at_line_end "/" "*").
Qed.

Lemma chop_open_in_front (c : ascii) (X W : string) :
  starts "*" W = false ->
  chop "/*" (String c X) = None -> chop "/*" (String c X ++ W) = None.
Proof.
  intros HW. change (String c X ++ W) with (String c (X ++ W)).
  rewrite !chop_cons. destruct ("/" =? c)%char; [|reflexivity].
  destruct X as [|d X]; [intros _; now apply starts_false_chop|].
  change (String d X ++ W) with (String d (X ++ W)). rewrite !chop_cons.
  destruct ("*" =? d)%char; [simpl; discriminate | reflexivity].
Qed.

Lemma block_m_in_front (m y Z : string) (c : ascii) (X : string) :
  (forall W, starts "*" (m ++ W) = false) ->
  (forall W, tail_starts "*/" (m ++ W) = false) ->
  (forall W, has "*/" (m ++ W) = has "*/" W) ->
  has "*/" y = false -> at_line_end Z = true ->
  block_m (String c X ++ m ++ y ++ Z) =
  match chop "/*" (String c X) with
  | Some r0 =>
      match after_first "*/" r0 with
      | Some r1 => Some (r1 ++ m ++ y ++ Z)
      | None => after_first "*/" Z
      end
  | None => None
  end.
Proof.
  intros Hm1 Hm2 Hm3 Hy HZ. unfold block_m.
  destruct (chop "/*" (String c X)) as [r0|] eqn:E.
  - rewrite (chop_append_r _ _ (m ++ y ++ Z) _ E).
    destruct (after_first "*/" r0) as [r1|] eqn:E1.
    + now apply after_first_append_r.
    + rewrite <- (append_assoc m y Z), <- (append_assoc r0 (m ++ y) Z).
      apply after_first_through, joint_free_has.
      * apply has_append_false; [apply Hm2 | unfold has; now rewrite E1 |].
        now rewrite Hm3.
      * now apply tail_starts_line_end.
  - now rewrite (chop_open_in_front c X (m ++ y ++ Z) (Hm1 _) E).
Qed.

Lemma block_pass_Hides (m t1 t2 : string) :
  (forall W, starts "*" (m ++ W) = false) ->
  (forall W, tail_starts "*/" (m ++ W) = false) ->
  (forall W, has "*/" (m ++ W) = has "*/" W) ->
  (forall W, has "/*" (m ++ W) = has "/*" W) ->
  Hides m t1 t2 -> Hides m (subf block_m t1) (subf block_m t2).
Proof.
  intros Hm1 Hm2 Hm3 Hm4 [->|(X & y & Z & -> & -> & Hy & Ho & Hc & HZ)]; [now left|].
  change (X ++ m ++ Z) with (X ++ m ++ "" ++ Z).
  assert (Hthrough : forall y0, has "/*" y0 = false ->
            subf block_m (m ++ y0 ++ Z) = m ++ y0 ++ subf block_m Z).
  { intros y0 H0. rewrite <- !(append_assoc m y0).
    apply (through _ "/*" block_m_progress block_m_guard).
    apply joint_free_has; [now rewrite Hm4 | now apply tail_starts_line_end]. }
  destruct (scan_coupled block_m block_m_progress (m ++ y ++ Z) (m ++ "" ++ Z))
    with (X := X) as [H | (X0 & H1 & H2)].
  - intros c X'. rewrite !block_m_in_front by auto.
    destruct (chop "/*" (String c X')) as [r0|] eqn:E; [|left; split; reflexivity].
    destruct (after_first "*/" r0) as [r1|] eqn:E1.
    + right; left. exists r1. split; [|split; reflexivity].
      eapply Suffix_trans; [eapply after_first_Suffix; eauto|].
      eapply chop_progress; eauto.
    + destruct (after_first "*/" Z) as [r|].
      * right; right. now exists r, r.
      * left; split; reflexivity.
  - now left.
  - right. rewrite H1, H2, !Hthrough by auto.
    exists X0, y, (subf block_m Z).
    repeat split; auto using block_pass_line_end.
Qed.

(** ** The passes over a line comment *)

Lemma style_eq_Block (st : style) : st = Block \/ st <> Block.
Proof. destruct st; [right | left | right | right]; congruence. Qed.

Lemma comment_passes_line_comment (st : style) (above body below : string) :
  st <> Block -> in_comment st above body below = true ->
  comment_passes (above ++ comment st body ++ below)
  = comment_passes (above ++ comment st "" ++ below).
Proof.
  intros Hst Hin. rewrite !comment_passes_eq.
  destruct st; [| now destruct Hst | |]; cbn [in_comment] in Hin.
  - (* two slashes *)
    apply andb_prop in Hin as [Hy HZ].
    change (comment SlashSlash body ++ below) with ("//" ++ body ++ below).
    change (comment SlashSlash "" ++ below) with ("//" ++ below).
    now rewrite (line_pass_equal "/" "/") by auto.
  - (* hash *)
    apply andb_prop in Hin as [Hin Hc]. apply andb_prop in Hin as [Hin Ho].
    apply andb_prop in Hin as [Hy HZ].
    apply negb_true_iff in Hc, Ho.
    change (comment Hash body ++ below) with ("#" ++ body ++ below).
    change (comment Hash "" ++ below) with ("#" ++ below).
    assert (H0 : Hides "#" (above ++ "#" ++ body ++ below) (above ++ "#" ++ below)).
    { right. now exists above, body, below. }
    apply (line_pass_Hides "/" "/") in H0; [| reflexivity | reflexivity | cbn; lia |].
    2:{ intros W. change ("#" ++ W) with (String "#" W).
        now rewrite (subf_eq _ (line_m_progress "/" "/")). }
    apply block_pass_Hides in H0; try (intros W; reflexivity).
    f_equal. now apply (line_pass_Hides_equal "#" "").
  - (* two dashes *)
    apply andb_prop in Hin as [Hin Hc]. apply andb_prop in Hin as [Hin Ho].
    apply andb_prop in Hin as [Hy HZ].
    apply negb_true_iff in Hc, Ho.
    change (comment DashDash body ++ below) with ("--" ++ body ++ below).
    change (comment DashDash "" ++ below) with ("--" ++ below).
    assert (H0 : Hides "--" (above ++ "--" ++ body ++ below) (above ++ "--" ++ below)).
    { right. now exists above, body, below. }
    apply (line_pass_Hides "/" "/") in H0; [| reflexivity | reflexivity | cbn; lia |].
    2:{ intros W. change ("--" ++ W) with (String "-" (String "-" W)).
        now rewrite !(subf_eq _ (line_m_progress "/" "/")). }
    apply block_pass_Hides in H0; try (intros W; reflexivity).
    apply (line_pass_Hides "#" "") in H0; [| reflexivity | reflexivity | cbn; lia |].
    2:{ intros W. change ("--" ++ W) with (String "-" (String "-" W)).
        now rewrite !(subf_eq _ (line_m_progress "#" "")). }
    now apply (line_pass_Hides_equal "-" "-").
Qed.

(** ** The passes over a block comment *)

(** The first pass works on a text and on what follows it one after the
    other, when no two slashes start in the last line of the text, what
    follows taken along. *)
Lemma slash_pass_cat (u v : string) :
  (forall c t, Suffix (String c t) u -> one_line (String c t) = true ->
               starts "//" (String c t ++ v) = false) ->
  subf (line_m "//") (u ++ v) = subf (line_m "//") u ++ subf (line_m "//") v.
Proof.
  intros H.
  apply (scan_cat (line_m "//") (line_m_progress "/" "/") (fun t => Suffix t u) v);
    [|auto].
  intros c X HQ. unfold line_m.
  destruct (chop "//" (String c X)) as [r0|] eqn:E.
  - rewrite (chop_append_r _ _ v _ E).
    destruct (one_line r0) eqn:Hr.
    + exfalso. specialize (H c X HQ).
      unfold starts in H. rewrite (chop_append_r _ _ v _ E) in H.
      rewrite (chop_sound _ _ _ E) in H. discriminate (H Hr).
    + rewrite drop_line_append_multi by exact Hr. split; [reflexivity|].
      eapply Suffix_trans; [apply Suffix_drop_line|].
      eapply Suffix_trans; [eapply chop_Suffix; eauto | exact HQ].
  - split; [|eapply Suffix_tail; eauto].
    assert (E2 : chop "//" (String c X ++ v) = None); [|now rewrite E2].
    destruct X as [|d X].
    + destruct (one_line (String c "")) eqn:Hc.
      * apply starts_false_chop. now apply H.
      * change (String c "" ++ v) with (String c v). rewrite chop_cons.
        destruct (Ascii.eqb_spec "/" c) as [<-|]; [discriminate Hc | reflexivity].
    + change (String c (String d X) ++ v) with (String c (String d (X ++ v))).
      rewrite !chop_cons in E |- *.
      destruct ("/" =? c)%char; [|reflexivity].
      destruct ("/" =? d)%char; [discriminate E | reflexivity].
Qed.

Lemma slash_pass_open (W : string) :
  subf (line_m "//") ("/*" ++ W) = "/*" ++ subf (line_m "//") W.
Proof.
  change ("/*" ++ W) with (String "/" (String "*" W)).
  now rewrite !(subf_eq _ (line_m_progress "/" "/")).
Qed.

Lemma slash_pass_close (W : string) :
  starts "/" W = false ->
  subf (line_m "//") ("*/" ++ W) = "*/" ++ subf (line_m "//") W.
Proof.
  intros HW. change ("*/" ++ W) with (String "*" (String "/" W)).
  rewrite !(subf_eq _ (line_m_progress "/" "/")).
  change (line_m "//" (String "*" (String "/" W))) with (@None string).
  cbv beta iota. rewrite line_m_guard; [reflexivity|].
  rewrite chop_cons. change ("/" =? "/")%char with true. cbv beta iota.
  now apply starts_false_chop.
Qed.

Lemma starts_slashes_front (c : ascii) (t w1 w2 : string) :
  starts "//" (String c t ++ "/" ++ w1) = starts "//" (String c t ++ "/" ++ w2).
Proof.
  destruct t as [|d t].
  - change (String c "" ++ "/" ++ w1) with (String c (String "/" w1)).
    change (String c "" ++ "/" ++ w2) with (String c (String "/" w2)).
    now rewrite !starts_cons.
  - change (String c (String d t) ++ "/" ++ w1)
      with (String c (String d (t ++ "/" ++ w1))).
    change (String c (String d t) ++ "/" ++ w2)
      with (String c (String d (t ++ "/" ++ w2))).
    now rewrite !starts_cons.
Qed.

(** The block pass works on a text and on what follows it one after the
    other, when the text leaves no block open. *)
Lemma block_pass_cat (u v : string) :
  has "/*" (subf block_m u) = false -> starts "*" v = false ->
  subf block_m (u ++ v) = subf block_m u ++ subf block_m v.
Proof.
  intros Hu Hv.
  apply (scan_cat block_m block_m_progress
           (fun t => has "/*" (subf block_m t) = false) v); [|exact Hu].
  intros c X HQ. rewrite (subf_eq _ block_m_progress) in HQ.
  destruct (block_m (String c X)) as [r|] eqn:E.
  - split; [|exact HQ]. unfold block_m in E |- *.
    destruct (chop "/*" (String c X)) as [r0|] eqn:E0; [|discriminate].
    rewrite (chop_append_r _ _ v _ E0). now apply after_first_append_r.
  - rewrite has_cons in HQ. apply orb_false_elim in HQ as [Hs HQ].
    split; [|exact HQ]. unfold block_m in E |- *.
    destruct (chop "/*" (String c X)) as [r0|] eqn:E0.
    + exfalso. apply chop_sound in E0.
      change ("/*" ++ r0) with (String "/" (String "*" r0)) in E0.
      injection E0 as -> ->.
      rewrite (subf_eq _ block_m_progress) in Hs.
      change (block_m (String "*" r0)) with (@None string) in Hs.
      discriminate Hs.
    + now rewrite (chop_open_in_front c X v Hv E0).
Qed.

Lemma block_comment_gone (body Z : string) :
  has "*/" body = false ->
  subf block_m ("/*" ++ body ++ "*/" ++ Z) = subf block_m Z.
Proof.
  intros Hb.
  change ("/*" ++ body ++ "*/" ++ Z) with (String "/" (String "*" (body ++ "*/" ++ Z))).
  now rewrite (subf_eq _ block_m_progress), block_m_open, after_first_close by exact Hb.
Qed.

(** A block comment that the first pass leaves whole goes in the second, and
    nothing of it is left between what the two passes make of the text in
    front and of the text behind. *)
Lemma block_pass_block_comment (above body below : string) :
  has "//" (last_line above ++ "/") = false ->
  has "/*" (subf block_m (subf (line_m "//") above)) = false ->
  has "//" (last_line body) = false ->
  has "*/" body = false ->
  starts "/" below = false ->
  subf block_m (subf (line_m "//") (above ++ "/*" ++ body ++ "*/" ++ below))
  = subf block_m (subf (line_m "//") above)
    ++ subf block_m (subf (line_m "//") below).
Proof.
  intros H1 H2 H3 H4 H5.
  rewrite slash_pass_cat.
  - rewrite slash_pass_open, slash_pass_cat.
    + rewrite (slash_pass_close below H5).
      rewrite block_pass_cat by (exact H2 || reflexivity).
      rewrite block_comment_gone; [reflexivity|].
      destruct (line_pass_spec "/" "/" eq_refl body) as [HT _].
      exact (Trunc_has _ _ "*"%char "/" HT eq_refl H4).
    + intros c t HS Ht.
      pose proof (has_Suffix_false _ _ _ (last_line_Suffix _ _ HS Ht) H3) as Hh.
      rewrite has_cons in Hh. apply orb_false_elim in Hh as [Hs _].
      destruct t as [|d t].
      * change (String c "" ++ "*/" ++ below) with (String c (String "*" (String "/" below))).
        rewrite !starts_cons. change ("/" =? "*")%char with false.
        now rewrite andb_false_r.
      * change (String c (String d t) ++ "*/" ++ below)
          with (String c (String d (t ++ "*/" ++ below))).
        rewrite !starts_cons in Hs |- *. exact Hs.
  - intros c t HS Ht.
    change ("/*" ++ body ++ "*/" ++ below) with ("/" ++ "*" ++ body ++ "*/" ++ below).
    rewrite (starts_slashes_front c t _ "").
    pose proof (Suffix_append _ _ "/" (last_line_Suffix _ _ HS Ht)) as HS'.
    pose proof (has_Suffix_false _ _ _ HS' H1) as Hh.
    change (String c t ++ "/") with (String c (t ++ "/")) in Hh.
    rewrite has_cons in Hh. now apply orb_false_elim in Hh as [Hs _].
Qed.

(** What the four passes make of a text does not depend on what stands in a
    comment of it. *)
Lemma comment_passes_in_comment (st : style) (above body below : string) :
  in_comment st above body below = true ->
  comment_passes (above ++ comment st body ++ below)
  = comment_passes (above ++ comment st "" ++ below).
Proof.
  intros Hin. destruct (style_eq_Block st) as [->|Hst];
    [|now apply comment_passes_line_comment].
  cbn [in_comment] in Hin.
  apply andb_prop in Hin as [Hin H5]. apply andb_prop in Hin as [Hin H4].
  apply andb_prop in Hin as [Hin H3]. apply andb_prop in Hin as [H1 H2].
  apply negb_true_iff in H1, H2, H3, H4, H5.
  rewrite sub_block, sub_slash in H2.
  rewrite !comment_passes_eq.
  change (comment Block body ++ below) with ("/*" ++ (body ++ "*/") ++ below).
  change (comment Block "" ++ below) with ("/*" ++ "" ++ "*/" ++ below).
  rewrite (append_assoc body).
  now rewrite !block_pass_block_comment by auto.
Qed.

(** Each condition of [in_comment] is needed: with one of them missing, what
    the passes leave depends on what the comment holds.  In turn: a block
    opened behind two slashes; behind a block left open that takes the
    slash of the opening marker for its end; closed by the body itself; with
    a slash behind the closing marker; a line comment behind a hash that
    holds the end of a block opened earlier; one that opens a block itself. *)
Example in_comment_conditions_needed :
  let differ st above body below :=
    in_comment st above body below = false /\
    comment_passes (above ++ comment st body ++ below)
    <> comment_passes (above ++ comment st "" ++ below) in
  differ Block "x /" (nl ++ "Copyright 2024" ++ nl) "" /\
  differ Block "/* x *" (nl ++ "Copyright 2024" ++ nl) "" /\
  differ Block "" "*/ Copyright 2024" "" /\
  differ Block "" (nl ++ "Copyright 2024" ++ nl) "/ 2" /\
  differ Hash ("/* x" ++ nl) " */Copyright 2024" "" /\
  differ Hash "" " Copyright 2024 /*" (nl ++ "*/ y").
Proof. cbv zeta beta. repeat split; vm_compute; discriminate. Qed.

(** C5, as the code has it.  The four passes run for both values of
    [remove_all]: the body of the output is [comment_passes] of the input
    either way, and the copyright scan reads what they leave.  A notice
    inside a comment that the passes take as a comment ([in_comment]) is
    gone before the scan: what the passes leave, and with it the output for
    both values of the flag, is the same as for the text with the comment
    emptied, whatever the notice is and whatever other comments stand around
    it, so nothing of the notice is preserved. *)
Theorem commented_notice_dropped (st : style) (above notice below : string) :
  in_comment st above notice below = true ->
  (forall text,
     strip text true = comment_passes text /\
     strip text false =
       String.concat nl (Re.findall copyright_pattern (comment_passes text))
       ++ nl ++ comment_passes text) /\
  comment_passes (above ++ comment st notice ++ below)
  = comment_passes (above ++ comment st "" ++ below) /\
  (forall remove_all,
     strip (above ++ comment st notice ++ below) remove_all
     = strip (above ++ comment st "" ++ below) remove_all).
Proof.
  intros Hin.
  pose proof (comment_passes_in_comment st above notice below Hin) as E.
  split; [intros text; split; reflexivity|].
  split; [exact E|].
  intros remove_all. unfold strip. now rewrite E.
Qed.

Lemma commented_notice_dropped_witness :
  strip ("int a; /* one */ int b; "
         ++ comment Block (nl ++ "Copyright 2024 Example" ++ nl)
         ++ " int x; // two") false
  = strip ("int a; /* one */ int b; " ++ comment Block "" ++ " int x; // two") false.
Proof.
  apply (commented_notice_dropped Block "int a; /* one */ int b; "
           (nl ++ "Copyright 2024 Example" ++ nl) " int x; // two").
  vm_compute; reflexivity.
Defined.

(** C5 fails as stated.  The notice line below lies wholly inside a block
    comment, but the closing line of the block holds two slashes before the
    closing marker: the first pass deletes from there to the end of the
    line, the closing marker included, the block pass finds no block, and
    the notice is still a line of what the passes leave.  The scan extracts
    it, and the output shows it twice; it is not the output for the emptied
    comment. *)
Lemma commented_notice_dropped_counterexample :
  let body := nl ++ "Copyright 2024 Example" ++ nl ++ "see http://example.com " in
  let text := "" ++ comment Block body ++ nl ++ "int x;" in
  text = "/*" ++ nl ++ "Copyright 2024 Example" ++ nl
         ++ "see http://example.com */" ++ nl ++ "int x;" /\
  comment_passes text
  = "/*" ++ nl ++ "Copyright 2024 Example" ++ nl ++ "see http:" ++ nl ++ "int x;" /\
  Re.findall copyright_pattern (comment_passes text) = ["Copyright 2024 Example"] /\
  strip text false
  = "Copyright 2024 Example" ++ nl
    ++ "/*" ++ nl ++ "Copyright 2024 Example" ++ nl ++ "see http:" ++ nl ++ "int x;" /\
  strip text false <> strip ("" ++ comment Block "" ++ nl ++ "int x;") false.
Proof. cbv zeta. repeat split; vm_compute; discriminate. Qed.

(** * Properties of the file-handling shell *)

Section ShellFacts.

Context {world : Type}.
Implicit Types (sys : Shell.system world) (st : Shell.state world).

Lemma world_now_log (l : Shell.level) (msg : string) st :
  Shell.world_now (Shell.log l msg st) = Shell.world_now st.
Proof. unfold Shell.log. now destruct (_ <=? _)%nat. Qed.

Lemma root_level_log (l : Shell.level) (msg : string) st :
  Shell.root_level (Shell.log l msg st) = Shell.root_level st.
Proof. unfold Shell.log. now destruct (_ <=? _)%nat. Qed.

Lemma records_log (l : Shell.level) (msg : string) st :
  Shell.records (Shell.log l msg st)
  = (Shell.records st
     ++ if (Shell.level_no (Shell.root_level st) <=? Shell.level_no l)%nat
        then [(l, msg)] else [])%list.
Proof.
  unfold Shell.log. destruct (_ <=? _)%nat; simpl; [reflexivity|].
  now rewrite app_nil_r.
Qed.

Lemma skipn_length_app {A : Type} (l x : list A) : skipn (List.length l) (l ++ x)%list = x.
Proof. induction l as [|a l IH]; [reflexivity | exact IH]. Qed.

Lemma new_records_eq st st' (n : list (Shell.level * string)) :
  Shell.records st' = (Shell.records st ++ n)%list -> Shell.new_records st st' = n.
Proof. unfold Shell.new_records; intros ->. apply skipn_length_app. Qed.

(** [detect_encoding] leaves the world and the level alone and adds at most
    one record, an error. *)
Lemma detect_encoding_state sys (file_path : string) st :
  let r := Shell.detect_encoding sys file_path st in
  Shell.world_now (snd r) = Shell.world_now st /\
  Shell.root_level (snd r) = Shell.root_level st /\
  exists n, Shell.records (snd r) = (Shell.records st ++ n)%list /\
            Forall (fun x => fst x = Shell.ERROR) n /\
            ((Shell.level_no (Shell.root_level st) <=? 40)%nat = false -> n = []).
Proof.
  unfold Shell.detect_encoding, Shell.logging_error.
  change 40 with (Shell.level_no Shell.ERROR).
  destruct (Shell.read_bytes sys (Shell.world_now st) file_path) as [e|raw]; cbn [snd].
  - rewrite world_now_log, root_level_log, records_log. repeat split.
    eexists; split; [reflexivity|]. destruct (_ <=? _)%nat; repeat constructor.
    discriminate.
  - destruct (Shell.chardet_detect sys raw) as [e|enc]; cbn [snd].
    + rewrite world_now_log, root_level_log, records_log. repeat split.
      eexists; split; [reflexivity|]. destruct (_ <=? _)%nat; repeat constructor.
      discriminate.
    + repeat split. exists []. now rewrite app_nil_r.
Qed.

Lemma detect_encoding_result sys (file_path : string) st (enc : string) :
  fst (Shell.detect_encoding sys file_path st) = Some enc ->
  exists raw, Shell.read_bytes sys (Shell.world_now st) file_path = inr raw /\
              Shell.chardet_detect sys raw = inr (Some enc).
Proof.
  unfold Shell.detect_encoding.
  destruct (Shell.read_bytes sys (Shell.world_now st) file_path) as [e|raw]; [discriminate|].
  destruct (Shell.chardet_detect sys raw) as [e|o] eqn:E; [discriminate|].
  simpl; intros ->. eauto.
Qed.

Lemma or_utf8_cases (detected : option string) :
  Shell.or_utf8 detected = "utf-8" \/ detected = Some (Shell.or_utf8 detected).
Proof. destruct detected as [[|c r]|]; simpl; auto. Qed.

(** The run of [remove_comments] in one piece: the state after detection and
    the fallback message, then the outcome of the read and of the write. *)
Lemma remove_comments_eq sys (input_file output_file : string) (remove_all : bool) st :
  exists st1,
    Shell.world_now st1 = Shell.world_now st /\
    Shell.root_level st1 = Shell.root_level st /\
    (exists n, Shell.records st1 = (Shell.records st ++ n)%list /\
               Forall (fun x => fst x = Shell.ERROR) n /\
               (Shell.truthy (fst (Shell.detect_encoding sys input_file st)) = false ->
                (Shell.level_no (Shell.root_level st) <=? 40)%nat = true ->
                In (Shell.ERROR,
                    "Could not detect encoding for " ++ input_file
                    ++ ".  Falling back to utf-8 but this may cause issues.") n) /\
               ((Shell.level_no (Shell.root_level st) <=? 40)%nat = false -> n = [])) /\
    Shell.remove_comments sys input_file output_file remove_all st =
    let encoding := Shell.or_utf8 (fst (Shell.detect_encoding sys input_file st)) in
    match Shell.read_text sys (Shell.world_now st) input_file encoding with
    | inl e => Shell.handlers input_file e st1
    | inr code =>
        match Shell.write_text sys (Shell.world_now st) output_file encoding
                (strip code remove_all) with
        | (w, Some e) => Shell.handlers input_file e (Shell.set_world w st1)
        | (w, None) =>
            Shell.logging_info ("Comments removed from " ++ input_file
                                ++ " and saved to " ++ output_file)
              (Shell.set_world w st1)
        end
    end.
Proof.
  unfold Shell.remove_comments.
  pose proof (detect_encoding_state sys input_file st) as (Hw & Hl & n & Hn & Hf & Hq).
  destruct (Shell.detect_encoding sys input_file st) as [detected st0].
  cbn [fst snd] in *. cbv beta iota zeta.
  destruct (Shell.truthy detected).
  - exists st0. rewrite Hw. repeat split; eauto.
    exists n. repeat split; auto. discriminate.
  - exists (Shell.logging_error
              ("Could not detect encoding for " ++ input_file
               ++ ".  Falling back to utf-8 but this may cause issues.") st0).
    unfold Shell.logging_error.
    rewrite world_now_log, root_level_log, records_log, Hw.
    split; [reflexivity|]. split; [exact Hl|]. split; [|reflexivity].
    rewrite Hn, <- app_assoc, Hl. change (Shell.level_no Shell.ERROR) with 40.
    eexists; split; [reflexivity|]. split; [|split].
    + apply Forall_app; split; [exact Hf|]. destruct (_ <=? _)%nat; repeat constructor.
    + intros _ He. rewrite He. apply in_or_app; right; now left.
    + intros He. now rewrite He, (Hq He).
Qed.

Lemma world_now_handlers (input_file : string) (e : Shell.exn) st :
  Shell.world_now (Shell.handlers input_file e st) = Shell.world_now st.
Proof. destruct e; apply world_now_log. Qed.

Lemma remove_comments_world sys
    (input_file output_file : string) (remove_all : bool) st :
  let st' := Shell.remove_comments sys input_file output_file remove_all st in
  Shell.world_now st' = Shell.world_now st \/
  exists encoding code,
    (encoding = "utf-8" \/
     exists raw, Shell.read_bytes sys (Shell.world_now st) input_file = inr raw /\
                 Shell.chardet_detect sys raw = inr (Some encoding)) /\
    Shell.read_text sys (Shell.world_now st) input_file encoding = inr code /\
    Shell.world_now st'
    = fst (Shell.write_text sys (Shell.world_now st) output_file encoding
             (strip code remove_all)).
Proof.
  destruct (remove_comments_eq sys input_file output_file remove_all st)
    as (st1 & Hw & _ & _ & ->). cbv zeta.
  set (encoding := Shell.or_utf8 _).
  destruct (Shell.read_text sys (Shell.world_now st) input_file encoding) as [e|code] eqn:Er.
  - left. now rewrite world_now_handlers.
  - right. exists encoding, code. split; [|split; [exact Er|]].
    + destruct (or_utf8_cases (fst (Shell.detect_encoding sys input_file st))) as [H|H];
        [now left | right; now apply detect_encoding_result].
    + destruct (Shell.write_text _ _ _ _ _) as [w [e|]]; simpl.
      * now rewrite world_now_handlers.
      * unfold Shell.logging_info. now rewrite world_now_log.
Qed.

(** X8.  [remove_comments] writes at most once, and only what it read: the
    world after the call is the world before it, or it is what writing to
    [output_file] makes of it, the text written being [strip] of the text
    read from [input_file], in the encoding the text was read in; that
    encoding is the one the detector gave for the bytes of the input, or
    utf-8. *)
Theorem remove_comments_writes_stripped sys
    (input_file output_file : string) (remove_all : bool) st :
  let st' := Shell.remove_comments sys input_file output_file remove_all st in
  Shell.world_now st' = Shell.world_now st \/
  exists encoding code,
    (encoding = "utf-8" \/
     exists raw, Shell.read_bytes sys (Shell.world_now st) input_file = inr raw /\
                 Shell.chardet_detect sys raw = inr (Some encoding)) /\
    Shell.read_text sys (Shell.world_now st) input_file encoding = inr code /\
    Shell.world_now st'
    = fst (Shell.write_text sys (Shell.world_now st) output_file encoding
             (strip code remove_all)).
Proof. apply remove_comments_world. Qed.

Lemma records_handlers (input_file : string) (e : Shell.exn) st :
  exists msg,
    Shell.records (Shell.handlers input_file e st)
    = (Shell.records st
       ++ if (Shell.level_no (Shell.root_level st) <=? 40)%nat
          then [(Shell.ERROR, msg)] else [])%list /\
    (forall m, e = Shell.FileNotFoundError m -> msg = "File not found: " ++ input_file).
Proof.
  destruct e as [m|m]; unfold Shell.handlers, Shell.logging_error;
    rewrite records_log; eexists; split; try reflexivity.
  discriminate.
Qed.

(** X9.  Success is reported only after the output has been written in
    full: if a call of [remove_comments] adds a record at level INFO, then
    the input was read, the write of the stripped text ended without an
    exception, the world is the one that write left, and the record is the
    success message. *)
Theorem remove_comments_success_record sys
    (input_file output_file : string) (remove_all : bool) st (m : string) :
  let st' := Shell.remove_comments sys input_file output_file remove_all st in
  In (Shell.INFO, m) (Shell.new_records st st') ->
  exists encoding code,
    Shell.read_text sys (Shell.world_now st) input_file encoding = inr code /\
    Shell.write_text sys (Shell.world_now st) output_file encoding
      (strip code remove_all) = (Shell.world_now st', None) /\
    m = "Comments removed from " ++ input_file ++ " and saved to " ++ output_file.
Proof.
  destruct (remove_comments_eq sys input_file output_file remove_all st)
    as (st1 & Hw & Hl & (n & Hn & Hf & _ & _) & ->). cbv zeta.
  set (encoding := Shell.or_utf8 _).
  assert (Herr : forall x, In (Shell.INFO, m) (n ++ x) ->
                           Forall (fun r : Shell.level * string => fst r = Shell.ERROR) x ->
                           False).
  { intros x Hin Hx. apply in_app_or in Hin as [Hin|Hin];
      [eapply Forall_forall in Hf | eapply Forall_forall in Hx]; eauto; discriminate. }
  destruct (Shell.read_text sys (Shell.world_now st) input_file encoding) as [e|code] eqn:Er.
  - destruct (records_handlers input_file e st1) as (msg & Hr & _).
    rewrite Hn, <- app_assoc in Hr. rewrite (new_records_eq _ _ _ Hr).
    intros Hin; exfalso; eapply Herr; eauto.
    destruct (_ <=? _)%nat; repeat constructor.
  - destruct (Shell.write_text _ _ _ _ _) as [w [e|]] eqn:Ew.
    + destruct (records_handlers input_file e (Shell.set_world w st1)) as (msg & Hr & _).
      cbn [Shell.set_world Shell.records Shell.root_level] in Hr.
      rewrite Hn, <- app_assoc in Hr. rewrite (new_records_eq _ _ _ Hr).
      intros Hin; exfalso; eapply Herr; eauto.
      destruct (_ <=? _)%nat; repeat constructor.
    + unfold Shell.logging_info.
      rewrite world_now_log. cbn [Shell.set_world Shell.world_now].
      pose proof (records_log Shell.INFO
                    ("Comments removed from " ++ input_file ++ " and saved to " ++ output_file)
                    (Shell.set_world w st1)) as Hr.
      cbn [Shell.set_world Shell.records Shell.root_level] in Hr.
      rewrite Hn, <- app_assoc in Hr. rewrite (new_records_eq _ _ _ Hr).
      intros Hin. exists encoding, code. split; [exact Er|]. split; [exact Ew|].
      apply in_app_or in Hin as [Hin|Hin].
      * eapply Forall_forall in Hf; eauto; discriminate.
      * destruct (_ <=? _)%nat; [|contradiction].
        destruct Hin as [[= <-]|[]]. reflexivity.
Qed.

(** X10.  When no encoding is detected, whether the bytes could not be
    read, the detector raised or it answered [None] or the empty name, the
    run goes on with utf-8: the input is read as utf-8; if that read fails
    the world stays as it is, and if it gives a text the stripped text is
    written to the output path as utf-8, the world being what that write
    leaves.  The fallback is recorded as an error if errors are let
    through. *)
Theorem remove_comments_falls_back sys
    (input_file output_file : string) (remove_all : bool) st :
  Shell.truthy (fst (Shell.detect_encoding sys input_file st)) = false ->
  let st' := Shell.remove_comments sys input_file output_file remove_all st in
  match Shell.read_text sys (Shell.world_now st) input_file "utf-8" with
  | inl _ => Shell.world_now st' = Shell.world_now st
  | inr code =>
      Shell.world_now st'
      = fst (Shell.write_text sys (Shell.world_now st) output_file "utf-8"
               (strip code remove_all))
  end /\
  ((Shell.level_no (Shell.root_level st) <=? 40)%nat = true ->
   In (Shell.ERROR,
       "Could not detect encoding for " ++ input_file
       ++ ".  Falling back to utf-8 but this may cause issues.")
      (Shell.new_records st st')).
Proof.
  intros Ht.
  destruct (remove_comments_eq sys input_file output_file remove_all st)
    as (st1 & Hw & Hl & (n & Hn & Hf & Hfb & _) & ->). cbv zeta.
  assert (Eu : Shell.or_utf8 (fst (Shell.detect_encoding sys input_file st)) = "utf-8").
  { destruct (fst (Shell.detect_encoding sys input_file st)) as [[|c r]|];
      [reflexivity | discriminate | reflexivity]. }
  rewrite Eu.
  destruct (Shell.read_text sys (Shell.world_now st) input_file "utf-8") as [e|code] eqn:Er.
  - split; [now rewrite world_now_handlers|]. intros He.
    destruct (records_handlers input_file e st1) as (msg & Hr & _).
    rewrite Hn, <- app_assoc in Hr. rewrite (new_records_eq _ _ _ Hr).
    apply in_or_app; left; auto.
  - destruct (Shell.write_text _ _ _ _ _) as [w [e|]] eqn:Ew.
    + split; [now rewrite world_now_handlers|].
      intros He.
      destruct (records_handlers input_file e (Shell.set_world w st1)) as (msg & Hr & _).
      cbn [Shell.set_world Shell.records Shell.root_level] in Hr.
      rewrite Hn, <- app_assoc in Hr. rewrite (new_records_eq _ _ _ Hr).
      apply in_or_app; left; auto.
    + unfold Shell.logging_info.
      split; [now rewrite world_now_log|].
      intros He.
      pose proof (records_log Shell.INFO
                    ("Comments removed from " ++ input_file ++ " and saved to " ++ output_file)
                    (Shell.set_world w st1)) as Hr.
      cbn [Shell.set_world Shell.records Shell.root_level] in Hr.
      rewrite Hn, <- app_assoc in Hr. rewrite (new_records_eq _ _ _ Hr).
      apply in_or_app; left; auto.
Qed.


Lemma log_quiet (l : Shell.level) (msg : string) st :
  (Shell.level_no (Shell.root_level st) <=? Shell.level_no l)%nat = false ->
  Shell.log l msg st = st.
Proof. unfold Shell.log; now intros ->. Qed.

Lemma remove_comments_quiet sys (input_file output_file : string) (remove_all : bool) st :
  (Shell.level_no (Shell.root_level st) <=? 40)%nat = false ->
  Shell.records (Shell.remove_comments sys input_file output_file remove_all st)
  = Shell.records st.
Proof.
  intros Hq.
  destruct (remove_comments_eq sys input_file output_file remove_all st)
    as (st1 & Hw & Hl & (n & Hn & _ & _ & Hnil) & ->). cbv zeta.
  rewrite (Hnil Hq), app_nil_r in Hn.
  assert (Hh : forall e st2, Shell.root_level st2 = Shell.root_level st ->
                             Shell.records (Shell.handlers input_file e st2)
                             = Shell.records st2).
  { intros e st2 H2. destruct (records_handlers input_file e st2) as (m & Hr & _).
    now rewrite Hr, H2, Hq, app_nil_r. }
  destruct (Shell.read_text _ _ _ _) as [e|code]; [now rewrite Hh|].
  destruct (Shell.write_text _ _ _ _ _) as [w [e|]]; [now rewrite Hh|].
  unfold Shell.logging_info. rewrite log_quiet; [exact Hn|].
  cbn [Shell.set_world Shell.root_level Shell.level_no]. rewrite Hl.
  apply Nat.leb_gt. apply Nat.leb_gt in Hq. lia.
Qed.

(** X12.  [main] does nothing for an input that is not a regular file: the
    world stays as it is and the only record added is the error about the
    input, and not even that at level CRITICAL; no detection and no read is
    tried, so none of their messages appears. *)
Theorem main_rejects_missing_input sys (a : Shell.args) st :
  Shell.isfile sys (Shell.world_now st) (Shell.input_file a) = false ->
  Shell.world_now (Shell.main sys a st) = Shell.world_now st /\
  Shell.new_records st (Shell.main sys a st)
  = if (Shell.level_no (Shell.log_level a) <=? 40)%nat
    then [(Shell.ERROR,
           "Error: Input file '" ++ Shell.input_file a ++ "' does not exist.")]
    else [].
Proof.
  intros H. unfold Shell.main. cbn [Shell.setLevel Shell.world_now]. rewrite H.
  cbn [negb]. unfold Shell.logging_error.
  split; [now rewrite world_now_log|].
  apply new_records_eq. now rewrite records_log.
Qed.

(** X13.  At level CRITICAL [main] is silent whatever happens: no record is
    added, neither the warning nor any error nor the success message. *)
Theorem main_critical_silent sys (a : Shell.args) st :
  Shell.log_level a = Shell.CRITICAL ->
  Shell.records (Shell.main sys a st) = Shell.records st.
Proof.
  intros H. unfold Shell.main, Shell.logging_error, Shell.logging_warning. rewrite H.
  destruct (negb _); [now rewrite log_quiet|].
  rewrite remove_comments_quiet.
  - destruct (Shell.path_exists _ _ _); [now rewrite log_quiet | reflexivity].
  - destruct (Shell.path_exists _ _ _); [now rewrite log_quiet | reflexivity].
Qed.

(** X14.  [main] changes the world only by the one write of
    [remove_comments], and only for an input that is a regular file: the
    world after [main] is the world before it, or the input is a regular
    file, was read, and the world is what writing [strip] of its text to
    the output path, in the encoding it was read in, has made of it. *)
Theorem main_writes_stripped sys (a : Shell.args) st :
  Shell.world_now (Shell.main sys a st) = Shell.world_now st \/
  Shell.isfile sys (Shell.world_now st) (Shell.input_file a) = true /\
  exists encoding code,
    Shell.read_text sys (Shell.world_now st) (Shell.input_file a) encoding = inr code /\
    Shell.world_now (Shell.main sys a st)
    = fst (Shell.write_text sys (Shell.world_now st) (Shell.output_file a) encoding
             (strip code (Shell.remove_all a))).
Proof.
  unfold Shell.main. cbn [Shell.setLevel Shell.world_now].
  destruct (Shell.isfile sys (Shell.world_now st) (Shell.input_file a)); cbn [negb].
  - set (st2 := if Shell.path_exists _ _ _ then _ else _).
    assert (H2 : Shell.world_now st2 = Shell.world_now st).
    { unfold st2, Shell.logging_warning.
      destruct (Shell.path_exists _ _ _); [now rewrite world_now_log | reflexivity]. }
    destruct (remove_comments_world sys (Shell.input_file a) (Shell.output_file a)
                (Shell.remove_all a) st2) as [E|(encoding & code & _ & Er & Ew)].
    + left. now rewrite E.
    + right. split; [reflexivity|]. exists encoding, code. now rewrite <- H2.
  - left. unfold Shell.logging_error. now rewrite world_now_log.
Qed.

End ShellFacts.

Lemma remove_comments_success_record_witness :
  exists encoding code,
    Shell.read_text Shell.demo [("a.c", "x = 1; // one")] "a.c" encoding = inr code /\
    Shell.write_text Shell.demo [("a.c", "x = 1; // one")] "b.c" encoding (strip code true)
    = (Shell.world_now
         (Shell.remove_comments Shell.demo "a.c" "b.c" true
            (Shell.start [("a.c", "x = 1; // one")])), None) /\
    "Comments removed from a.c and saved to b.c"
    = "Comments removed from " ++ "a.c" ++ " and saved to " ++ "b.c".
Proof.
  apply (remove_comments_success_record Shell.demo "a.c" "b.c" true
           (Shell.start [("a.c", "x = 1; // one")])).
  vm_compute. left; reflexivity.
Defined.

Lemma remove_comments_falls_back_witness :
  Shell.world_now
    (Shell.remove_comments Shell.demo "e.c" "o.c" false (Shell.start [("e.c", "")]))
  = [("o.c", nl); ("e.c", "")] /\
  In (Shell.ERROR,
      "Could not detect encoding for " ++ "e.c"
      ++ ".  Falling back to utf-8 but this may cause issues.")
     (Shell.new_records (Shell.start [("e.c", "")])
        (Shell.remove_comments Shell.demo "e.c" "o.c" false (Shell.start [("e.c", "")]))).
Proof.
  pose proof (remove_comments_falls_back Shell.demo "e.c" "o.c" false
                (Shell.start [("e.c", "")]) eq_refl) as [H1 H2].
  split; [exact H1 | exact (H2 eq_refl)].
Defined.


Lemma main_rejects_missing_input_witness :
  Shell.world_now
    (Shell.main Shell.demo
       {| Shell.input_file := "gone.c"; Shell.output_file := "b.c";
          Shell.remove_all := false; Shell.log_level := Shell.INFO |}
       (Shell.start [("a.c", "x")]))
  = [("a.c", "x")].
Proof.
  apply (main_rejects_missing_input Shell.demo
           {| Shell.input_file := "gone.c"; Shell.output_file := "b.c";
              Shell.remove_all := false; Shell.log_level := Shell.INFO |}
           (Shell.start [("a.c", "x")])).
  vm_compute; reflexivity.
Defined.

Lemma main_critical_silent_witness :
  Shell.records
    (Shell.main Shell.demo
       {| Shell.input_file := "gone.c"; Shell.output_file := "b.c";
          Shell.remove_all := false; Shell.log_level := Shell.CRITICAL |}
       (Shell.start [("a.c", "x")]))
  = [].
Proof.
  apply (main_critical_silent Shell.demo
           {| Shell.input_file := "gone.c"; Shell.output_file := "b.c";
              Shell.remove_all := false; Shell.log_level := Shell.CRITICAL |}
           (Shell.start [("a.c", "x")])).
  reflexivity.
Defined.
